(** * Voice-bot browser client: framing, PCM encoding and session lifecycle

    A shallow embedding of the two JavaScript sources of the client:

    - the audio worklet [AudioProcessor] (frame accumulator), and
    - [VoiceBotClient] with [startPingInterval] from [client/src/main.js].

    JavaScript numbers are modelled by [number]; typed arrays by lists;
    the mutable client object, the DOM elements it writes, the browser's
    interval timers and the log of platform calls by one record [World]
    that every method threads explicitly. *)

From Stdlib Require Import ZArith QArith Qround String List Lia Bool.
From stdpp Require Import base list.
Import ListNotations.

(** ** JavaScript numbers *)

(** The samples are IEEE-754 values.  A finite value is kept as the exact
    rational it denotes; every sample read from a [Float32Array] is a
    binary32 value, and on such values the operations used by the encoder
    (multiplication by [32768 = 2^15], [Math.min], [Math.max] against
    integer constants, truncation) are exact in binary64, so no rounding
    step is lost by computing in [Q].  The sign of zero is not tracked: no
    operation below distinguishes [-0] from [+0]. *)
Inductive number : Type :=
| NaN
| Infinity (negative : bool)
| Finite (q : Q).

Definition num_of_Z (z : Z) : number := Finite (inject_Z z).

Definition Qsign_neg (q : Q) : bool := (Qnum q <? 0)%Z.
Definition Qis_zero (q : Q) : bool := (Qnum q =? 0)%Z.

(** [a * b] on numbers. *)
Definition num_mul (a b : number) : number :=
  match a, b with
  | NaN, _ | _, NaN => NaN
  | Infinity s, Infinity t => Infinity (xorb s t)
  | Infinity s, Finite q | Finite q, Infinity s =>
      if Qis_zero q then NaN else Infinity (xorb s (Qsign_neg q))
  | Finite p, Finite q => Finite (p * q)
  end.

(** [Math.min(a, b)] and [Math.max(a, b)]: [NaN] if either argument is. *)
Definition Math_min (a b : number) : number :=
  match a, b with
  | NaN, _ | _, NaN => NaN
  | Infinity true, _ | _, Infinity true => Infinity true
  | Infinity false, x | x, Infinity false => x
  | Finite p, Finite q => if Qle_bool p q then Finite p else Finite q
  end.

Definition Math_max (a b : number) : number :=
  match a, b with
  | NaN, _ | _, NaN => NaN
  | Infinity false, _ | _, Infinity false => Infinity false
  | Infinity true, x | x, Infinity true => x
  | Finite p, Finite q => if Qle_bool p q then Finite q else Finite p
  end.

(** Truncation toward zero of a rational (the [truncate] step of the
    ECMAScript integer conversions). *)
Definition Qtruncate (q : Q) : Z := Z.quot (Qnum q) (Zpos (Qden q)).

(** [ToInt16]: the conversion applied when a number is stored in an
    [Int16Array].  [NaN] and the infinities become [0]; a finite value is
    truncated toward zero and wrapped modulo [2^16] into
    [-32768 .. 32767]. *)
Definition ToInt16 (x : number) : Z :=
  match x with
  | NaN | Infinity _ => 0%Z
  | Finite q =>
      let int16bit := ((Qtruncate q) mod 65536)%Z in
      if (32768 <=? int16bit)%Z then (int16bit - 65536)%Z else int16bit
  end.

(** ** The audio worklet: [AudioProcessor] *)

Module AudioProcessor.

Record t : Type := mk {
  frameSize : nat;
  buffer : list number;     (* Float32Array(frameSize) *)
  bufferIndex : nat
}.

(** [options.processorOptions?.frameSize || 320]: an absent or zero
    option falls back to 320. *)
Definition frameSize_of_option (o : option nat) : nat :=
  match o with
  | None | Some O => 320
  | Some n => n
  end.

Definition constructor (processorOptions_frameSize : option nat) : t :=
  let fs := frameSize_of_option processorOptions_frameSize in
  {| frameSize := fs; buffer := replicate fs (num_of_Z 0); bufferIndex := 0 |}.

(** [sendAudioFrame]: posts a copy of the whole buffer.  The posted
    message is returned to the caller. *)
Definition sendAudioFrame (p : t) : list number := buffer p.

(** One iteration of the [for] loop of [process].  A write beyond the
    end of a typed array is ignored, which is what list insert does. *)
Definition process_sample (st : t * list (list number)) (x : number)
  : t * list (list number) :=
  let (p, posted) := st in
  let p1 := {| frameSize := frameSize p;
               buffer := <[bufferIndex p := x]> (buffer p);
               bufferIndex := S (bufferIndex p) |} in
  if (frameSize p1 <=? bufferIndex p1)%nat
  then ({| frameSize := frameSize p1; buffer := buffer p1; bufferIndex := 0 |},
        posted ++ [sendAudioFrame p1])
  else (p1, posted).

(** [process(inputs, outputs, parameters)].  [input] is [inputs[0]], the
    list of channels of the first input; only channel 0 is read.  The
    pass-through copy into [outputs[0][0]] writes a platform buffer that
    the processor never reads back and is left out.  The result is the
    new processor state and the frames posted during the call, oldest
    first. *)
Definition process (p : t) (input : list (list number))
  : t * list (list number) :=
  match input with
  | [] => (p, [])
  | inputChannel :: _ => fold_left process_sample inputChannel (p, [])
  end.

(** Channel 0 of a delivery: the samples that [process] consumes. *)
Definition samples_of (input : list (list number)) : list number :=
  match input with
  | [] => []
  | inputChannel :: _ => inputChannel
  end.

(** A run of the processor over successive render quanta. *)
Fixpoint run (p : t) (deliveries : list (list (list number)))
  : t * list (list number) :=
  match deliveries with
  | [] => (p, [])
  | input :: rest =>
      let (p1, posted1) := process p input in
      let (p2, posted2) := run p1 rest in
      (p2, posted1 ++ posted2)
  end.

Definition frames (processorOptions_frameSize : option nat)
    (deliveries : list (list (list number))) : list (list number) :=
  snd (run (constructor processorOptions_frameSize) deliveries).

End AudioProcessor.

(** ** The client: data *)

(** [WebSocket.readyState]. *)
Inductive ReadyState : Type := CONNECTING | OPEN | CLOSING | CLOSED.

Record WebSocket : Type := { readyState : ReadyState }.

(** The other platform objects are opaque handles: the client only tests
    them for presence and calls their release method. *)
Inductive AudioContext : Type := AudioContextHandle.
Inductive MediaStream : Type := MediaStreamHandle.
Inductive AudioWorkletNode : Type := AudioWorkletNodeHandle.

(** The first argument of [updateStatus]; [statusEl.className] is the
    word [status] followed by it. *)
Inductive Status : Type :=
  disconnected | connecting | connected | listening | speaking.

(** Control messages, the objects that travel as JSON text. *)
Inductive ControlMessage : Type :=
| msg_ready
| msg_ping
| msg_pong
| msg_ready_ack
| msg_config_updated
| msg_error (message : string)
| msg_other (type : string).

(** What [ws.send] is given: the buffer of an [Int16Array], or
    [JSON.stringify] of a control message. *)
Inductive Payload : Type :=
| Binary (pcm : list Z)
| Text (m : ControlMessage).

(** Calls into the platform, in the order they are made. *)
Inductive Effect : Type :=
| console_log (s : string)
| console_warn (s : string)
| console_error (s : string)
| getUserMedia_call
| AudioContext_new
| audioWorklet_addModule
| AudioWorkletNode_new
| WebSocket_new
| ws_send (p : Payload)
| ws_close
| audioWorkletNode_disconnect
| audioContext_close
| track_stop
| decodeAudioData_call
| source_start
| visualizer_update (audioData : list number).

(** The two callbacks the sources pass to [setInterval]. *)
Inductive Callback : Type := MockAudioTick | PingTick.

(** A live interval timer: times are in milliseconds. *)
Record Interval : Type := { callback : Callback; period : N; due : N }.

(** The client object ([this]), the DOM elements it writes, and the part
    of the browser the sources act on.  The constructor's [isListening],
    [isSpeaking], [sampleRate] and [bufferSize] are never read again and
    are left out; [frameSize] is the constant 320. *)
Record World : Type := {
  ws : option WebSocket;
  audioContext : option AudioContext;
  mediaStream : option MediaStream;
  audioWorkletNode : option AudioWorkletNode;
  isConnected : bool;
  isMuted : bool;
  mockAudioInterval : option positive;
  statusClass : Status;            (* statusEl.className *)
  statusText : string;             (* statusEl.textContent *)
  connectBtnText : string;         (* connectBtn.textContent *)
  muteBtnDisabled : bool;          (* muteBtn.disabled *)
  muteBtnText : string;            (* muteBtn.textContent *)
  timers : list (positive * Interval);   (* live intervals, oldest first *)
  nextTimerId : positive;
  clock : N;                       (* current time, ms *)
  draws : nat;                     (* calls to Math.random so far *)
  trace : list (N * Effect)        (* platform calls with their time *)
}.

Definition set_ws (v : option WebSocket) (w : World) : World :=
  {| ws := v; audioContext := audioContext w; mediaStream := mediaStream w;
     audioWorkletNode := audioWorkletNode w; isConnected := isConnected w;
     isMuted := isMuted w; mockAudioInterval := mockAudioInterval w;
     statusClass := statusClass w; statusText := statusText w;
     connectBtnText := connectBtnText w;
     muteBtnDisabled := muteBtnDisabled w; muteBtnText := muteBtnText w;
     timers := timers w; nextTimerId := nextTimerId w; clock := clock w;
     draws := draws w; trace := trace w |}.

Definition set_audioContext (v : option AudioContext) (w : World) : World :=
  {| ws := ws w; audioContext := v; mediaStream := mediaStream w;
     audioWorkletNode := audioWorkletNode w; isConnected := isConnected w;
     isMuted := isMuted w; mockAudioInterval := mockAudioInterval w;
     statusClass := statusClass w; statusText := statusText w;
     connectBtnText := connectBtnText w;
     muteBtnDisabled := muteBtnDisabled w; muteBtnText := muteBtnText w;
     timers := timers w; nextTimerId := nextTimerId w; clock := clock w;
     draws := draws w; trace := trace w |}.

Definition set_mediaStream (v : option MediaStream) (w : World) : World :=
  {| ws := ws w; audioContext := audioContext w; mediaStream := v;
     audioWorkletNode := audioWorkletNode w; isConnected := isConnected w;
     isMuted := isMuted w; mockAudioInterval := mockAudioInterval w;
     statusClass := statusClass w; statusText := statusText w;
     connectBtnText := connectBtnText w;
     muteBtnDisabled := muteBtnDisabled w; muteBtnText := muteBtnText w;
     timers := timers w; nextTimerId := nextTimerId w; clock := clock w;
     draws := draws w; trace := trace w |}.

Definition set_audioWorkletNode (v : option AudioWorkletNode) (w : World) : World :=
  {| ws := ws w; audioContext := audioContext w;
     mediaStream := mediaStream w; audioWorkletNode := v;
     isConnected := isConnected w; isMuted := isMuted w;
     mockAudioInterval := mockAudioInterval w; statusClass := statusClass w;
     statusText := statusText w; connectBtnText := connectBtnText w;
     muteBtnDisabled := muteBtnDisabled w; muteBtnText := muteBtnText w;
     timers := timers w; nextTimerId := nextTimerId w; clock := clock w;
     draws := draws w; trace := trace w |}.

Definition set_isConnected (v : bool) (w : World) : World :=
  {| ws := ws w; audioContext := audioContext w;
     mediaStream := mediaStream w; audioWorkletNode := audioWorkletNode w;
     isConnected := v; isMuted := isMuted w;
     mockAudioInterval := mockAudioInterval w; statusClass := statusClass w;
     statusText := statusText w; connectBtnText := connectBtnText w;
     muteBtnDisabled := muteBtnDisabled w; muteBtnText := muteBtnText w;
     timers := timers w; nextTimerId := nextTimerId w; clock := clock w;
     draws := draws w; trace := trace w |}.

Definition set_isMuted (v : bool) (w : World) : World :=
  {| ws := ws w; audioContext := audioContext w;
     mediaStream := mediaStream w; audioWorkletNode := audioWorkletNode w;
     isConnected := isConnected w; isMuted := v;
     mockAudioInterval := mockAudioInterval w; statusClass := statusClass w;
     statusText := statusText w; connectBtnText := connectBtnText w;
     muteBtnDisabled := muteBtnDisabled w; muteBtnText := muteBtnText w;
     timers := timers w; nextTimerId := nextTimerId w; clock := clock w;
     draws := draws w; trace := trace w |}.

Definition set_mockAudioInterval (v : option positive) (w : World) : World :=
  {| ws := ws w; audioContext := audioContext w;
     mediaStream := mediaStream w; audioWorkletNode := audioWorkletNode w;
     isConnected := isConnected w; isMuted := isMuted w;
     mockAudioInterval := v; statusClass := statusClass w;
     statusText := statusText w; connectBtnText := connectBtnText w;
     muteBtnDisabled := muteBtnDisabled w; muteBtnText := muteBtnText w;
     timers := timers w; nextTimerId := nextTimerId w; clock := clock w;
     draws := draws w; trace := trace w |}.

Definition set_statusClass (v : Status) (w : World) : World :=
  {| ws := ws w; audioContext := audioContext w;
     mediaStream := mediaStream w; audioWorkletNode := audioWorkletNode w;
     isConnected := isConnected w; isMuted := isMuted w;
     mockAudioInterval := mockAudioInterval w; statusClass := v;
     statusText := statusText w; connectBtnText := connectBtnText w;
     muteBtnDisabled := muteBtnDisabled w; muteBtnText := muteBtnText w;
     timers := timers w; nextTimerId := nextTimerId w; clock := clock w;
     draws := draws w; trace := trace w |}.

Definition set_statusText (v : string) (w : World) : World :=
  {| ws := ws w; audioContext := audioContext w;
     mediaStream := mediaStream w; audioWorkletNode := audioWorkletNode w;
     isConnected := isConnected w; isMuted := isMuted w;
     mockAudioInterval := mockAudioInterval w; statusClass := statusClass w;
     statusText := v; connectBtnText := connectBtnText w;
     muteBtnDisabled := muteBtnDisabled w; muteBtnText := muteBtnText w;
     timers := timers w; nextTimerId := nextTimerId w; clock := clock w;
     draws := draws w; trace := trace w |}.

Definition set_connectBtnText (v : string) (w : World) : World :=
  {| ws := ws w; audioContext := audioContext w;
     mediaStream := mediaStream w; audioWorkletNode := audioWorkletNode w;
     isConnected := isConnected w; isMuted := isMuted w;
     mockAudioInterval := mockAudioInterval w; statusClass := statusClass w;
     statusText := statusText w; connectBtnText := v;
     muteBtnDisabled := muteBtnDisabled w; muteBtnText := muteBtnText w;
     timers := timers w; nextTimerId := nextTimerId w; clock := clock w;
     draws := draws w; trace := trace w |}.

Definition set_muteBtnDisabled (v : bool) (w : World) : World :=
  {| ws := ws w; audioContext := audioContext w;
     mediaStream := mediaStream w; audioWorkletNode := audioWorkletNode w;
     isConnected := isConnected w; isMuted := isMuted w;
     mockAudioInterval := mockAudioInterval w; statusClass := statusClass w;
     statusText := statusText w; connectBtnText := connectBtnText w;
     muteBtnDisabled := v; muteBtnText := muteBtnText w; timers := timers w;
     nextTimerId := nextTimerId w; clock := clock w; draws := draws w;
     trace := trace w |}.

Definition set_muteBtnText (v : string) (w : World) : World :=
  {| ws := ws w; audioContext := audioContext w;
     mediaStream := mediaStream w; audioWorkletNode := audioWorkletNode w;
     isConnected := isConnected w; isMuted := isMuted w;
     mockAudioInterval := mockAudioInterval w; statusClass := statusClass w;
     statusText := statusText w; connectBtnText := connectBtnText w;
     muteBtnDisabled := muteBtnDisabled w; muteBtnText := v;
     timers := timers w; nextTimerId := nextTimerId w; clock := clock w;
     draws := draws w; trace := trace w |}.

Definition set_timers (v : list (positive * Interval)) (w : World) : World :=
  {| ws := ws w; audioContext := audioContext w;
     mediaStream := mediaStream w; audioWorkletNode := audioWorkletNode w;
     isConnected := isConnected w; isMuted := isMuted w;
     mockAudioInterval := mockAudioInterval w; statusClass := statusClass w;
     statusText := statusText w; connectBtnText := connectBtnText w;
     muteBtnDisabled := muteBtnDisabled w; muteBtnText := muteBtnText w;
     timers := v; nextTimerId := nextTimerId w; clock := clock w;
     draws := draws w; trace := trace w |}.

Definition set_nextTimerId (v : positive) (w : World) : World :=
  {| ws := ws w; audioContext := audioContext w;
     mediaStream := mediaStream w; audioWorkletNode := audioWorkletNode w;
     isConnected := isConnected w; isMuted := isMuted w;
     mockAudioInterval := mockAudioInterval w; statusClass := statusClass w;
     statusText := statusText w; connectBtnText := connectBtnText w;
     muteBtnDisabled := muteBtnDisabled w; muteBtnText := muteBtnText w;
     timers := timers w; nextTimerId := v; clock := clock w;
     draws := draws w; trace := trace w |}.

Definition set_clock (v : N) (w : World) : World :=
  {| ws := ws w; audioContext := audioContext w;
     mediaStream := mediaStream w; audioWorkletNode := audioWorkletNode w;
     isConnected := isConnected w; isMuted := isMuted w;
     mockAudioInterval := mockAudioInterval w; statusClass := statusClass w;
     statusText := statusText w; connectBtnText := connectBtnText w;
     muteBtnDisabled := muteBtnDisabled w; muteBtnText := muteBtnText w;
     timers := timers w; nextTimerId := nextTimerId w; clock := v;
     draws := draws w; trace := trace w |}.

Definition set_draws (v : nat) (w : World) : World :=
  {| ws := ws w; audioContext := audioContext w;
     mediaStream := mediaStream w; audioWorkletNode := audioWorkletNode w;
     isConnected := isConnected w; isMuted := isMuted w;
     mockAudioInterval := mockAudioInterval w; statusClass := statusClass w;
     statusText := statusText w; connectBtnText := connectBtnText w;
     muteBtnDisabled := muteBtnDisabled w; muteBtnText := muteBtnText w;
     timers := timers w; nextTimerId := nextTimerId w; clock := clock w;
     draws := v; trace := trace w |}.

Definition set_trace (v : list (N * Effect)) (w : World) : World :=
  {| ws := ws w; audioContext := audioContext w;
     mediaStream := mediaStream w; audioWorkletNode := audioWorkletNode w;
     isConnected := isConnected w; isMuted := isMuted w;
     mockAudioInterval := mockAudioInterval w; statusClass := statusClass w;
     statusText := statusText w; connectBtnText := connectBtnText w;
     muteBtnDisabled := muteBtnDisabled w; muteBtnText := muteBtnText w;
     timers := timers w; nextTimerId := nextTimerId w; clock := clock w;
     draws := draws w; trace := v |}.

(** ** The client: methods *)

Local Open Scope string_scope.

(** Records a platform call, stamped with the current time. *)
Definition emit (e : Effect) (w : World) : World :=
  set_trace (trace w ++ [(clock w, e)]) w.

(** [updateStatus(type, message)]. *)
Definition updateStatus (type : Status) (message : string) (w : World) : World :=
  set_statusText message (set_statusClass type w).

(** [this.ws && this.ws.readyState === WebSocket.OPEN]. *)
Definition ws_is_open (w : World) : bool :=
  match ws w with
  | Some s => match readyState s with OPEN => true | _ => false end
  | None => false
  end.

(** The value stored in [pcmData[i]]: the clamped product, converted by
    the [Int16Array] store. *)
Definition pcm_sample (x : number) : Z :=
  ToInt16 (Math_max (num_of_Z (-32768))
             (Math_min (num_of_Z 32767) (num_mul x (num_of_Z 32768)))).

(** [sendAudioData(audioData)]. *)
Definition sendAudioData (audioData : list number) (w : World) : World :=
  if ws_is_open w
  then emit (ws_send (Binary (map pcm_sample audioData))) w
  else w.

(** [sendControlMessage(message)]. *)
Definition sendControlMessage (message : ControlMessage) (w : World) : World :=
  if ws_is_open w then emit (ws_send (Text message)) w else w.

(** [updateAudioVisualizer(audioData)] only rewrites the heights of the 32
    bars from the data; it is kept as the call with its argument. *)
Definition updateAudioVisualizer (audioData : list number) (w : World) : World :=
  emit (visualizer_update audioData) w.

(** [handleControlMessage(message)]. *)
Definition handleControlMessage (message : ControlMessage) (w : World) : World :=
  let w := emit (console_log "Control message received:") w in
  match message with
  | msg_ready_ack => emit (console_log "Server ready for audio processing") w
  | msg_pong => emit (console_log "Pong received") w
  | msg_config_updated => emit (console_log "Configuration updated") w
  | msg_error m =>
      updateStatus disconnected ("エラー: " ++ m)
        (emit (console_error "Server error:") w)
  | _ => emit (console_log "Unknown message type:") w
  end.

(** [toggleMute()]. *)
Definition toggleMute (w : World) : World :=
  let w := set_isMuted (negb (isMuted w)) w in
  let w := set_muteBtnText (if isMuted w then "ミュート解除" else "ミュート") w in
  if isMuted w
  then updateStatus connected "ミュート中" w
  else updateStatus connected "接続済み" w.

(** [setInterval(callback, ms)]: registers a timer under a fresh positive
    id, first due [ms] from now, and returns the id. *)
Definition setInterval (cb : Callback) (ms : N) (w : World) : positive * World :=
  let id := nextTimerId w in
  (id,
   set_nextTimerId (Pos.succ id)
     (set_timers
        (timers w ++ [(id, {| callback := cb; period := ms; due := (clock w + ms)%N |})])
        w)).

(** [clearInterval(id)]. *)
Definition clearInterval (id : positive) (w : World) : World :=
  set_timers (List.filter (fun t => negb (Pos.eqb (fst t) id)) (timers w)) w.

(** [cleanup()]. *)
Definition cleanup (w : World) : World :=
  let w := match mockAudioInterval w with
           | Some id => set_mockAudioInterval None (clearInterval id w)
           | None => w
           end in
  let w := match ws w with
           | Some _ => set_ws None (emit ws_close w)
           | None => w
           end in
  let w := match audioWorkletNode w with
           | Some _ => set_audioWorkletNode None (emit audioWorkletNode_disconnect w)
           | None => w
           end in
  let w := match audioContext w with
           | Some _ => set_audioContext None (emit audioContext_close w)
           | None => w
           end in
  let w := match mediaStream w with
           | Some _ => set_mediaStream None (emit track_stop w)
           | None => w
           end in
  let w := set_isConnected false w in
  let w := set_connectBtnText "接続" w in
  let w := set_muteBtnDisabled true w in
  let w := set_muteBtnText "ミュート" w in
  set_isMuted false w.

(** [disconnect()]. *)
Definition disconnect (w : World) : World :=
  updateStatus disconnected "切断しました" (cleanup w).

(** ** Connecting *)

(** How a call that may throw, or a promise that may reject, ends. *)
Inductive Completion : Type :=
| Normal
| Throws (message : string).

(** What the platform answers during one [connect()]: the microphone
    request, the two [AudioContext] constructions (real and mock set-up),
    the worklet module load, and the WebSocket handshake. *)
Record Env : Type := {
  getUserMedia : Completion;
  realAudioContext : Completion;
  addModule : Completion;
  mockAudioContext : Completion;
  handshake : bool
}.

(** [setupRealAudio()].  Creating the worklet node and wiring the graph
    are taken not to throw once the module has loaded; the [onmessage]
    handler it installs is [port_onmessage] below. *)
Definition setupRealAudio (env : Env) (w : World) : World * Completion :=
  let w := emit AudioContext_new w in
  match realAudioContext env with
  | Throws m => (w, Throws m)
  | Normal =>
      let w := set_audioContext (Some AudioContextHandle) w in
      let w := emit audioWorklet_addModule w in
      match addModule env with
      | Throws m => (w, Throws m)
      | Normal =>
          let w := emit AudioWorkletNode_new w in
          (set_audioWorkletNode (Some AudioWorkletNodeHandle) w, Normal)
      end
  end.

(** [setupMockAudio()]. *)
Definition setupMockAudio (env : Env) (w : World) : World * Completion :=
  let w := emit AudioContext_new w in
  match mockAudioContext env with
  | Throws m => (w, Throws m)
  | Normal =>
      let w := set_audioContext (Some AudioContextHandle) w in
      let w := emit (console_log "Mock audio mode: simulating audio input for testing") w in
      let (id, w) := setInterval MockAudioTick 20 w in
      (set_mockAudioInterval (Some id) w, Normal)
  end.

(** [initializeAudio()]: the inner [try] covers both the microphone
    request and [setupRealAudio]; its [catch] falls back to the mock
    source; the outer [catch] rethrows with a prefixed message. *)
Definition initializeAudio (env : Env) (w : World) : World * Completion :=
  let inner :=
    let w := emit getUserMedia_call w in
    match getUserMedia env with
    | Normal =>
        let w := set_mediaStream (Some MediaStreamHandle) w in
        let w := emit (console_log "Real microphone initialized") w in
        setupRealAudio env w
    | Throws m => (w, Throws m)
    end in
  let caught :=
    match inner with
    | (w, Normal) => (w, Normal)
    | (w, Throws _) =>
        let w := emit (console_warn "Real microphone not available, using mock audio:") w in
        setupMockAudio env w
    end in
  match caught with
  | (w, Normal) => (w, Normal)
  | (w, Throws m) => (w, Throws ("オーディオ初期化に失敗しました: " ++ m))
  end.

(** [connectWebSocket()], run until the promise settles: [onopen] sends
    [ready] and resolves, [onerror] rejects.  The [onclose] and
    [onmessage] handlers it installs are [ws_onclose] and [ws_onmessage]
    below. *)
Definition connectWebSocket (env : Env) (w : World) : World * Completion :=
  let w := emit WebSocket_new w in
  if handshake env then
    let w := set_ws (Some {| readyState := OPEN |}) w in
    let w := emit (console_log "WebSocket connected") w in
    (sendControlMessage msg_ready w, Normal)
  else
    let w := set_ws (Some {| readyState := CLOSED |}) w in
    let w := emit (console_error "WebSocket error:") w in
    (w, Throws "WebSocket接続エラー").

(** The [catch] block of [connect()]. *)
Definition connect_catch (message : string) (w : World) : World :=
  let w := emit (console_error "Connection failed:") w in
  let w := updateStatus disconnected ("接続失敗: " ++ message) w in
  cleanup w.

(** [connect()], run to completion with the platform's answers [env]. *)
Definition connect (env : Env) (w : World) : World :=
  let w := updateStatus connecting "接続中..." w in
  match initializeAudio env w with
  | (w, Throws m) => connect_catch m w
  | (w, Normal) =>
      match connectWebSocket env w with
      | (w, Throws m) => connect_catch m w
      | (w, Normal) =>
          let w := set_isConnected true w in
          let w := set_connectBtnText "切断" w in
          let w := set_muteBtnDisabled false w in
          updateStatus connected "接続済み" w
      end
  end.

(** ** Event handlers *)

(** [audioWorkletNode.port.onmessage]: [type] and [data] are the two
    fields of the posted object. *)
Definition port_onmessage (type : string) (data : list number) (w : World) : World :=
  if String.eqb type "audioData" && negb (isMuted w) then
    let w := sendAudioData data w in
    let w := updateAudioVisualizer data w in
    updateStatus listening "音声認識中..." w
  else w.

(** The values of [Math.random()] as the mock source uses them: the
    binary32 value of [(Math.random() - 0.5) * 0.01] at the k-th call, and
    whether the k-th call is below [0.1]. *)
Record Random : Type := {
  quietNoise : nat -> number;
  belowTenth : nat -> bool
}.

(** The callback of the mock source's interval. *)
Definition mockAudioTick (rnd : Random) (w : World) : World :=
  if negb (isMuted w) && isConnected w then
    let mockData := map (fun i => quietNoise rnd (draws w + i)%nat) (seq 0 320) in
    let w := set_draws (draws w + 320)%nat w in
    let w := sendAudioData mockData w in
    let w := updateAudioVisualizer mockData w in
    let coin := belowTenth rnd (draws w) in
    let w := set_draws (S (draws w)) w in
    if coin then updateStatus listening "音声認識中... (テストモード)" w else w
  else w.

(** The callback of [startPingInterval]. *)
Definition pingTick (w : World) : World :=
  if isConnected w then sendControlMessage msg_ping w else w.

(** [startPingInterval(client)]: the timer id is not kept. *)
Definition startPingInterval (w : World) : World :=
  snd (setInterval PingTick 30000 w).

(** [ws.onclose]. *)
Definition ws_onclose (w : World) : World :=
  let w := match ws w with
           | Some _ => set_ws (Some {| readyState := CLOSED |}) w
           | None => w
           end in
  let w := emit (console_log "WebSocket disconnected") w in
  let w := set_isConnected false w in
  let w := set_connectBtnText "接続" w in
  let w := set_muteBtnDisabled true w in
  updateStatus disconnected "切断されました" w.

(** ** Playback *)

(** How the awaited [decodeAudioData] and the following [source.start()]
    end for one payload. *)
Inductive DecodeOutcome : Type :=
| DecodeRejects (message : string)
| Decoded (start : Completion).

(** The [catch] block of [playAudioResponse]. *)
Definition playAudioResponse_catch (w : World) : World :=
  updateStatus connected "接続済み"
    (emit (console_error "Error playing audio response:") w).

(** [playAudioResponse] up to its [await]: the status is set, then
    [decodeAudioData] is called on [this.audioContext]; on a null context
    the call throws a [TypeError] into the [catch] block.  The boolean
    tells whether the method is now suspended on the decoder. *)
Definition playAudioResponse_begin (w : World) : World * bool :=
  let w := updateStatus speaking "ボット応答中..." w in
  match audioContext w with
  | None => (playAudioResponse_catch w, false)
  | Some _ => (emit decodeAudioData_call w, true)
  end.

(** [playAudioResponse] from the [await] on. *)
Definition playAudioResponse_resume (o : DecodeOutcome) (w : World) : World :=
  match o with
  | DecodeRejects _ => playAudioResponse_catch w
  | Decoded start =>
      match audioContext w with
      | None => playAudioResponse_catch w
      | Some _ =>
          match start with
          | Normal => emit source_start w
          | Throws _ => playAudioResponse_catch w
          end
      end
  end.

(** [playAudioResponse(audioBuffer)] with no other event while the
    decoder runs. *)
Definition playAudioResponse (o : DecodeOutcome) (w : World) : World :=
  match playAudioResponse_begin w with
  | (w, true) => playAudioResponse_resume o w
  | (w, false) => w
  end.

(** [source.onended]. *)
Definition source_onended (w : World) : World :=
  updateStatus connected "接続済み" w.

(** What [JSON.parse] makes of the text it is given: a syntax error,
    [null], or another value.  A value is read only through its [type]
    field (and [message] for an error); [msg_other] stands for every value
    whose [type] is none of the known words, absent included. *)
Inductive Parsed : Type :=
| parse_SyntaxError
| parse_null
| parse_value (message : ControlMessage).

(** [event.data] of a message event: an [ArrayBuffer] (with the way its
    decoding will end), a [Blob], or a string (with what [JSON.parse]
    makes of it). *)
Inductive EventData : Type :=
| ArrayBufferData (o : DecodeOutcome)
| BlobData
| StringData (p : Parsed).

(** A frame received on the wire. *)
Inductive Frame : Type :=
| BinaryFrame
| TextFrame (p : Parsed).

(** How the browser hands a frame to [onmessage].  A binary frame is
    delivered according to [ws.binaryType]; the client never assigns it,
    so it keeps its default, the blob type, and every binary frame
    arrives as a [Blob]. *)
Definition event_data (f : Frame) : EventData :=
  match f with
  | BinaryFrame => BlobData
  | TextFrame p => StringData p
  end.

(** [ws.onmessage].  Data that is not an [ArrayBuffer] goes to
    [JSON.parse]: a [Blob] is converted to a string that is not JSON, so
    the parse throws, as it does on malformed text; the exception leaves
    the handler.  On [null] the handler logs, then throws on
    [message.type].  [playAudioResponse] is asynchronous and never throws
    into the handler. *)
Definition ws_onmessage (d : EventData) (w : World) : World * Completion :=
  match d with
  | ArrayBufferData o => (playAudioResponse o w, Normal)
  | BlobData => (w, Throws "SyntaxError")
  | StringData parse_SyntaxError => (w, Throws "SyntaxError")
  | StringData parse_null =>
      (emit (console_log "Control message received:") w, Throws "TypeError")
  | StringData (parse_value message) => (handleControlMessage message w, Normal)
  end.

(** A frame arriving on the socket. *)
Definition ws_receive (f : Frame) (w : World) : World * Completion :=
  ws_onmessage (event_data f) w.

(** ** Buttons and page load *)

(** The click listener of [connectBtn]. *)
Definition connectBtn_click (env : Env) (w : World) : World :=
  if isConnected w then disconnect w else connect env w.

(** The click listener of [muteBtn]; a disabled button receives no
    click. *)
Definition muteBtn_click (w : World) : World :=
  if muteBtnDisabled w then w else toggleMute w.

(** The client as [new VoiceBotClient()] leaves it, on a page whose two
    buttons carry the given labels; [initializeUI] sets the status. *)
Definition constructor (connectBtn_label muteBtn_label : string)
    (muteBtn_disabled : bool) : World :=
  updateStatus disconnected "接続待機中"
    {| ws := None; audioContext := None; mediaStream := None;
       audioWorkletNode := None; isConnected := false; isMuted := false;
       mockAudioInterval := None;
       statusClass := disconnected; statusText := "";
       connectBtnText := connectBtn_label;
       muteBtnDisabled := muteBtn_disabled; muteBtnText := muteBtn_label;
       timers := []; nextTimerId := 1%positive; clock := 0%N; draws := 0%nat;
       trace := [] |}.

(** The [DOMContentLoaded] listener. *)
Definition DOMContentLoaded (connectBtn_label muteBtn_label : string)
    (muteBtn_disabled : bool) : World :=
  startPingInterval (constructor connectBtn_label muteBtn_label muteBtn_disabled).

(** The [beforeunload] listener. *)
Definition beforeunload (w : World) : World := cleanup w.

(** ** Interval timers and simulated time *)

Definition run_callback (rnd : Random) (cb : Callback) (w : World) : World :=
  match cb with
  | MockAudioTick => mockAudioTick rnd w
  | PingTick => pingTick w
  end.

(** Runs, oldest first, the callback of every timer of [ts] that is due
    at the current time. *)
Definition fire_due (rnd : Random) (ts : list (positive * Interval)) (w : World)
  : World :=
  fold_left
    (fun w t => if (due (snd t) =? clock w)%N
                then run_callback rnd (callback (snd t)) w else w)
    ts w.

(** An interval that has just fired is due again one period later. *)
Definition reschedule (now : N) (t : positive * Interval) : positive * Interval :=
  if (due (snd t) =? now)%N
  then (fst t, {| callback := callback (snd t); period := period (snd t);
                  due := (now + period (snd t))%N |})
  else t.

(** One millisecond of simulated time with no other event. *)
Definition tick_ms (rnd : Random) (w : World) : World :=
  let w := set_clock (clock w + 1)%N w in
  let w := fire_due rnd (timers w) w in
  set_timers (map (reschedule (clock w)) (timers w)) w.

(** [ms] milliseconds of simulated time. *)
Definition advance (rnd : Random) (ms : N) (w : World) : World :=
  N.iter ms (tick_ms rnd) w.

(** ** Observations on the trace *)

Definition is_ping (e : N * Effect) : bool :=
  match snd e with
  | ws_send (Text msg_ping) => true
  | _ => false
  end.

Definition is_binary_send (e : N * Effect) : bool :=
  match snd e with
  | ws_send (Binary _) => true
  | _ => false
  end.

Definition is_send (e : N * Effect) : bool :=
  match snd e with
  | ws_send _ => true
  | _ => false
  end.

Definition is_visualizer_update (e : N * Effect) : bool :=
  match snd e with
  | visualizer_update _ => true
  | _ => false
  end.

Definition is_WebSocket_new (e : N * Effect) : bool :=
  match snd e with
  | WebSocket_new => true
  | _ => false
  end.

(** The times at which pings were sent. *)
Definition ping_times (w : World) : list N :=
  map fst (List.filter is_ping (trace w)).

Definition is_ping_timer (t : positive * Interval) : bool :=
  match callback (snd t) with PingTick => true | MockAudioTick => false end.

(** The live heartbeat timers. *)
Definition ping_timers (w : World) : list (positive * Interval) :=
  List.filter is_ping_timer (timers w).

(** Whether a timer with the given id is live. *)
Definition timer_live (id : positive) (w : World) : bool :=
  existsb (fun t => Pos.eqb (fst t) id) (timers w).

Local Close Scope string_scope.

(** ** Vocabulary of the properties *)

(** What the worklet has consumed so far is exactly the posted frames
    followed by the filled part of the buffer. *)
Definition acc_inv (p : AudioProcessor.t) (posted : list (list number))
    (seen : list number) : Prop :=
  length (AudioProcessor.buffer p) = AudioProcessor.frameSize p /\
  (AudioProcessor.bufferIndex p < AudioProcessor.frameSize p)%nat /\
  Forall (fun f => length f = AudioProcessor.frameSize p) posted /\
  seen = concat posted ++ take (AudioProcessor.bufferIndex p) (AudioProcessor.buffer p).

(** Saturation to the 16-bit signed range. *)
Definition clamp16 (z : Z) : Z := Z.max (-32768) (Z.min 32767 z).

(** Rounding to the nearest integer, ties upward, as [Math.round] does. *)
Definition Qround_nearest (q : Q) : Z := Qfloor (q + (1 # 2)).

(** The encoder as the specification words it:
    [clamp(round(sample * 32768), -32768, 32767)]. *)
Definition spec_sample16 (q : Q) : Z := clamp16 (Qround_nearest (q * 32768)).

(** Every resource handle of the session is null. *)
Definition released (w : World) : Prop :=
  mockAudioInterval w = None /\ ws w = None /\ audioWorkletNode w = None /\
  audioContext w = None /\ mediaStream w = None.

(** The session part of the client is the same in both worlds. *)
Definition session_kept (w w' : World) : Prop :=
  ws w' = ws w /\ audioContext w' = audioContext w /\
  mediaStream w' = mediaStream w /\ audioWorkletNode w' = audioWorkletNode w /\
  isConnected w' = isConnected w /\ isMuted w' = isMuted w /\
  mockAudioInterval w' = mockAudioInterval w /\ timers w' = timers w.

(** The binary frames sent so far, and the number of WebSocket
    constructions so far. *)
Definition binary_sends (w : World) : list (N * Effect) :=
  List.filter is_binary_send (trace w).

Definition sockets_opened (w : World) : nat :=
  length (List.filter is_WebSocket_new (trace w)).

(** Handing the frames posted by the worklet to the client, in order. *)
Definition deliver_frames (fs : list (list number)) (w : World) : World :=
  fold_left (fun w f => port_onmessage "audioData" f w) fs w.

(** Sample worlds and platforms for the examples. *)
Definition page : World := DOMContentLoaded "接続" "ミュート" true.

Definition env_real : Env :=
  {| getUserMedia := Normal; realAudioContext := Normal; addModule := Normal;
     mockAudioContext := Normal; handshake := true |}.

Definition env_no_microphone : Env :=
  {| getUserMedia := Throws "Permission denied"; realAudioContext := Normal;
     addModule := Normal; mockAudioContext := Normal; handshake := true |}.

Definition env_no_audio : Env :=
  {| getUserMedia := Throws "Permission denied"; realAudioContext := Normal;
     addModule := Normal; mockAudioContext := Throws "not supported";
     handshake := true |}.

Definition silence : Random :=
  {| quietNoise := fun _ => Finite 0; belowTenth := fun _ => false |}.

(** A session on the real microphone and one on the mock source, each
    muted by a click on the mute button. *)
Definition muted_session : World := muteBtn_click (connect env_real page).

Definition muted_mock_session : World :=
  muteBtn_click (connect env_no_microphone page).

(** The calls to the visualizer so far. *)
Definition visualizer_updates (w : World) : list (N * Effect) :=
  List.filter is_visualizer_update (trace w).

(** What can happen on the capture side: the worklet posts a frame, or
    time passes and the timers run. *)
Inductive CaptureEvent : Type :=
| WorkletFrame (data : list number)
| TimePasses (ms : N).

Definition capture_step (rnd : Random) (w : World) (e : CaptureEvent) : World :=
  match e with
  | WorkletFrame data => port_onmessage "audioData" data w
  | TimePasses ms => advance rnd ms w
  end.

Definition capture_run (rnd : Random) (es : list CaptureEvent) (w : World) : World :=
  fold_left (capture_step rnd) es w.

(** A connected session on an open socket whose single heartbeat timer is
    next due at [d]. *)
Definition heartbeat_armed (d : N) (w : World) : Prop :=
  isConnected w = true /\ ws_is_open w = true /\
  exists id, ping_timers w = [(id, {| callback := PingTick; period := 30000; due := d |})].

(** The release calls [cleanup] owes for the handles a world holds, in
    the order it makes them: socket, worklet node, audio context, media
    stream. *)
Definition release_calls (w : World) : list Effect :=
  let l := match mediaStream w with Some _ => [track_stop] | None => [] end in
  let l := match audioContext w with Some _ => audioContext_close :: l | None => l end in
  let l := match audioWorkletNode w with
           | Some _ => audioWorkletNode_disconnect :: l
           | None => l
           end in
  match ws w with Some _ => ws_close :: l | None => l end.

(** Calls made at one time. *)
Definition stamp (t : N) (es : list Effect) : list (N * Effect) :=
  map (fun e => (t, e)) es.

(** The timers left once the timer [handle] is cleared, if there is one. *)
Definition without_timer (handle : option positive)
    (ts : list (positive * Interval)) : list (positive * Interval) :=
  match handle with
  | Some id => List.filter (fun t => negb (Pos.eqb (fst t) id)) ts
  | None => ts
  end.

(** The mock-source timer that [setupMockAudio] registers in [w]. *)
Definition new_mock_timer (w : World) : positive * Interval :=
  (nextTimerId w,
   {| callback := MockAudioTick; period := 20; due := (clock w + 20)%N |}).

(** ** Vocabulary of the further properties *)

(** A processor whose buffer has its declared size and whose write
    cursor is inside it. *)
Definition wellformed (p : AudioProcessor.t) : Prop :=
  length (AudioProcessor.buffer p) = AudioProcessor.frameSize p /\
  (AudioProcessor.bufferIndex p < AudioProcessor.frameSize p)%nat.

(** The processor after a run from its constructor. *)
Definition processor_after (o : option nat) (deliveries : list (list (list number)))
  : AudioProcessor.t :=
  fst (AudioProcessor.run (AudioProcessor.constructor o) deliveries).

(** The binary payloads handed to [ws.send] so far, oldest first. *)
Definition binary_payloads (w : World) : list (list Z) :=
  flat_map (fun e => match snd e with
                     | ws_send (Binary pcm) => [pcm]
                     | _ => []
                     end) (trace w).

(** Every call of [ws.send] so far. *)
Definition sends (w : World) : list (N * Effect) := List.filter is_send (trace w).

Definition is_AudioContext_new (e : Effect) : bool :=
  match e with AudioContext_new => true | _ => false end.

Definition is_audioContext_close (e : Effect) : bool :=
  match e with audioContext_close => true | _ => false end.

Definition is_source_start (e : Effect) : bool :=
  match e with source_start => true | _ => false end.

Definition is_decodeAudioData_call (e : Effect) : bool :=
  match e with decodeAudioData_call => true | _ => false end.

(** How many recorded platform calls satisfy [f]. *)
Definition count_calls (f : Effect -> bool) (w : World) : nat :=
  length (List.filter (fun e => f (snd e)) (trace w)).

(** Whether [initializeAudio] ends normally under [env]: the real path
    succeeds entirely, or the mock fallback can create its context. *)
Definition audio_initializes (env : Env) : bool :=
  match getUserMedia env, realAudioContext env, addModule env with
  | Normal, Normal, Normal => true
  | _, _, _ => match mockAudioContext env with Normal => true | Throws _ => false end
  end.

(** The events the page reacts to. *)
Inductive Event : Type :=
| ev_connectBtn_click (env : Env)
| ev_muteBtn_click
| ev_port_message (type : string) (data : list number)
| ev_ws_message (d : EventData)
| ev_ws_close
| ev_source_ended
| ev_time (rnd : Random) (ms : N)
| ev_beforeunload.

Definition step (w : World) (e : Event) : World :=
  match e with
  | ev_connectBtn_click env => connectBtn_click env w
  | ev_muteBtn_click => muteBtn_click w
  | ev_port_message type data => port_onmessage type data w
  | ev_ws_message d => fst (ws_onmessage d w)
  | ev_ws_close => ws_onclose w
  | ev_source_ended => source_onended w
  | ev_time rnd ms => advance rnd ms w
  | ev_beforeunload => beforeunload w
  end.

Definition run_events (es : list Event) (w : World) : World := fold_left step es w.

(** The three button properties agree with the two flags. *)
Definition ui_consistent (w : World) : Prop :=
  muteBtnDisabled w = negb (isConnected w) /\
  connectBtnText w = (if isConnected w then "切断" else "接続")%string /\
  muteBtnText w = (if isMuted w then "ミュート解除" else "ミュート")%string.

(** Every live timer id was handed out before the next one. *)
Definition timers_fresh (w : World) : Prop :=
  Forall (fun t => (fst t < nextTimerId w)%positive) (timers w).




(** A platform on which the worklet module fails to load and the mock
    fallback works. *)
Definition env_no_worklet : Env :=
  {| getUserMedia := Normal; realAudioContext := Normal;
     addModule := Throws "module not found"; mockAudioContext := Normal;
     handshake := true |}.

(** The flags and button properties are the same in both worlds. *)
Definition ui_kept (w w' : World) : Prop :=
  isConnected w' = isConnected w /\ isMuted w' = isMuted w /\
  muteBtnDisabled w' = muteBtnDisabled w /\
  connectBtnText w' = connectBtnText w /\ muteBtnText w' = muteBtnText w.

(** Whether [initializeAudio] ends on the mock source under [env]: the
    real path fails somewhere and the fallback can create its context. *)
Definition mock_fallback (env : Env) : bool :=
  match getUserMedia env, realAudioContext env, addModule env with
  | Normal, Normal, Normal => false
  | _, _, _ => match mockAudioContext env with Normal => true | Throws _ => false end
  end.

(** The sizes of the binary payloads sent so far. *)
Definition payload_sizes (w : World) : list nat := map length (binary_payloads w).

(** * Properties *)

(** ** Frame accumulator *)

Section Accumulator.
Import AudioProcessor.

Lemma constructor_inv o : acc_inv (constructor o) [] [].
Proof.
  unfold acc_inv, constructor; simpl.
  rewrite length_replicate. repeat split; auto.
  destruct o as [[|n]|]; simpl; lia.
Qed.

Lemma process_sample_inv p posted seen x :
  acc_inv p posted seen ->
  acc_inv (fst (process_sample (p, posted) x)) (snd (process_sample (p, posted) x))
          (seen ++ [x]) /\
  frameSize (fst (process_sample (p, posted) x)) = frameSize p.
Proof.
  intros (Hlen & Hidx & Hall & Hseen).
  assert (Hlook : <[bufferIndex p := x]> (buffer p) !! bufferIndex p = Some x)
    by (apply list_lookup_insert_eq; lia).
  assert (Htake : take (S (bufferIndex p)) (<[bufferIndex p := x]> (buffer p))
                  = take (bufferIndex p) (buffer p) ++ [x]).
  { rewrite (take_S_r _ _ x Hlook). f_equal. apply take_insert_ge. lia. }
  unfold process_sample; simpl.
  destruct (Nat.leb_spec (frameSize p) (S (bufferIndex p))) as [Hfull | Hroom];
    simpl; (split; [| reflexivity]); unfold acc_inv; simpl;
    rewrite length_insert; repeat split; auto; try lia.
  - apply Forall_app; split; auto. constructor; auto.
    unfold sendAudioFrame; simpl. now rewrite length_insert.
  - unfold sendAudioFrame; simpl.
    rewrite concat_app; simpl. rewrite !app_nil_r, Hseen, <- app_assoc.
    f_equal. rewrite <- Htake. apply take_ge. rewrite length_insert. lia.
  - rewrite Hseen, <- app_assoc. now rewrite Htake.
Qed.

Lemma fold_process_sample_inv xs : forall p posted seen,
  acc_inv p posted seen ->
  acc_inv (fst (fold_left process_sample xs (p, posted)))
          (snd (fold_left process_sample xs (p, posted))) (seen ++ xs) /\
  frameSize (fst (fold_left process_sample xs (p, posted))) = frameSize p.
Proof.
  induction xs as [| x xs IH]; intros p posted seen Hinv; cbn [fold_left].
  - now rewrite app_nil_r.
  - destruct (process_sample_inv p posted seen x Hinv) as [H1 H2].
    destruct (process_sample (p, posted) x) as [p1 posted1].
    cbn [fst snd] in H1, H2.
    destruct (IH p1 posted1 (seen ++ [x]) H1) as [H3 H4].
    rewrite <- app_assoc in H3. split; [exact H3 | congruence].
Qed.

(** Frames posted by a call extend those posted before it. *)
Lemma fold_process_sample_posted xs : forall p posted,
  fold_left process_sample xs (p, posted) =
  (fst (fold_left process_sample xs (p, [])),
   posted ++ snd (fold_left process_sample xs (p, []))).
Proof.
  induction xs as [| x xs IH]; intros p posted; cbn [fold_left].
  - cbn [fst snd]. now rewrite app_nil_r.
  - unfold process_sample; cbn [frameSize bufferIndex buffer].
    destruct (frameSize p <=? S (bufferIndex p))%nat.
    + rewrite IH. rewrite (IH _ ([] ++ _)). cbn [fst snd].
      now rewrite <- app_assoc.
    + apply IH.
Qed.

Lemma process_inv p posted seen input :
  acc_inv p posted seen ->
  acc_inv (fst (process p input)) (posted ++ snd (process p input))
          (seen ++ samples_of input) /\
  frameSize (fst (process p input)) = frameSize p.
Proof.
  intros Hinv. destruct input as [| ch rest]; simpl.
  - now rewrite !app_nil_r.
  - pose proof (fold_process_sample_inv ch p posted seen Hinv) as H.
    rewrite fold_process_sample_posted in H. simpl in H. exact H.
Qed.

Lemma run_inv deliveries : forall p posted seen,
  acc_inv p posted seen ->
  acc_inv (fst (run p deliveries)) (posted ++ snd (run p deliveries))
          (seen ++ concat (map samples_of deliveries)) /\
  frameSize (fst (run p deliveries)) = frameSize p.
Proof.
  induction deliveries as [| input rest IH]; intros p posted seen Hinv; simpl.
  - now rewrite !app_nil_r.
  - destruct (process_inv p posted seen input Hinv) as [H1 H2].
    destruct (process p input) as [p1 posted1]; simpl in *.
    destruct (IH p1 (posted ++ posted1) (seen ++ samples_of input) H1) as [H3 H4].
    destruct (run p1 rest) as [p2 posted2]; simpl in *.
    rewrite <- !app_assoc in H3. split; [exact H3 | congruence].
Qed.

Lemma length_concat_uniform (n : nat) (ls : list (list number)) :
  Forall (fun f => length f = n) ls -> length (concat ls) = (n * length ls)%nat.
Proof.
  induction 1 as [| f ls Hf _ IH]; simpl; [lia |].
  rewrite length_app, IH, Hf. lia.
Qed.

End Accumulator.

(** The posted frames are the whole frames of the input, in order. *)
Lemma frames_are_input_prefix (o : option nat) (deliveries : list (list (list number))) :
  let frameSize := AudioProcessor.frameSize_of_option o in
  let input := concat (map AudioProcessor.samples_of deliveries) in
  let out := AudioProcessor.frames o deliveries in
  length out = (length input / frameSize)%nat /\
  Forall (fun f => length f = frameSize) out /\
  concat out = take (frameSize * (length input / frameSize)) input.
Proof.
  intros frameSize input out.
  destruct (run_inv deliveries _ [] [] (constructor_inv o))
    as [(Hlen & Hidx & Hall & Hseen) Hfs].
  simpl in Hall, Hseen, Hfs.
  fold input in Hseen. unfold AudioProcessor.frames in out. fold out in Hall, Hseen.
  set (p := fst (AudioProcessor.run (AudioProcessor.constructor o) deliveries)) in *.
  assert (Hfs' : AudioProcessor.frameSize p = frameSize) by exact Hfs.
  rewrite Hfs' in *.
  assert (Hcat : length (concat out) = (frameSize * length out)%nat)
    by now apply length_concat_uniform.
  assert (Htot : length input =
                 (frameSize * length out + AudioProcessor.bufferIndex p)%nat).
  { rewrite Hseen at 1. rewrite length_app, Hcat, length_take. lia. }
  assert (Hdiv : (length input / frameSize)%nat = length out).
  { symmetry. apply (Nat.div_unique _ _ _ (AudioProcessor.bufferIndex p)); lia. }
  repeat split; auto.
  rewrite Hdiv, <- Hcat. rewrite Hseen at 1. now rewrite take_app_length.
Qed.

(** C1.  Whatever the sizes of the deliveries, the worklet posts
    [floor(total / frameSize)] frames, each of exactly [frameSize]
    samples, and the posted frames laid end to end are the input cut to a
    whole number of frames: nothing is skipped, repeated or reordered.
    [frameSize] is 320 for the option the client passes and for an absent
    one. *)
Theorem frame_accumulator_emits_prefix :
  AudioProcessor.frameSize_of_option (Some 320%nat) = 320%nat /\
  AudioProcessor.frameSize_of_option None = 320%nat /\
  forall (o : option nat) (deliveries : list (list (list number))),
    let frameSize := AudioProcessor.frameSize_of_option o in
    let input := concat (map AudioProcessor.samples_of deliveries) in
    let out := AudioProcessor.frames o deliveries in
    length out = (length input / frameSize)%nat /\
    Forall (fun f => length f = frameSize) out /\
    concat out = take (frameSize * (length input / frameSize)) input.
Proof.
  split; [reflexivity | split; [reflexivity |]].
  exact frames_are_input_prefix.
Qed.

(** Frame size 2, deliveries of 3, 0, 1 and 5 samples: four frames. *)
Example frames_across_deliveries :
  AudioProcessor.frames (Some 2%nat)
    [[[num_of_Z 1; num_of_Z 2; num_of_Z 3]]; []; [[num_of_Z 4]];
     [[num_of_Z 5; num_of_Z 6; num_of_Z 7; num_of_Z 8; num_of_Z 9]]]
  = [[num_of_Z 1; num_of_Z 2]; [num_of_Z 3; num_of_Z 4];
     [num_of_Z 5; num_of_Z 6]; [num_of_Z 7; num_of_Z 8]].
Proof. reflexivity. Qed.

(** ** PCM encoder *)

Lemma quot_lower (n d t r c : Z) :
  (0 < d)%Z -> n = (d * t + r)%Z -> (Z.abs r < d)%Z ->
  (c * d <= n)%Z -> (c <= t)%Z.
Proof.
  intros Hd Hn Hr Hc.
  assert (H : (d * c < d * (t + 1))%Z) by lia.
  apply Z.mul_lt_mono_pos_l in H; lia.
Qed.

Lemma quot_upper (n d t r c : Z) :
  (0 < d)%Z -> n = (d * t + r)%Z -> (Z.abs r < d)%Z ->
  (n <= c * d)%Z -> (t <= c)%Z.
Proof.
  intros Hd Hn Hr Hc.
  assert (H : (d * t < d * (c + 1))%Z) by lia.
  apply Z.mul_lt_mono_pos_l in H; lia.
Qed.

(** Strictly below a positive bound, truncation stays strictly
    below it. *)
Lemma quot_upper_strict (n d t r c : Z) :
  (0 < d)%Z -> n = (d * t + r)%Z -> (Z.abs r < d)%Z ->
  (0 <= n -> 0 <= r)%Z -> (n < c * d)%Z -> (0 < c)%Z -> (t < c)%Z.
Proof.
  intros Hd Hn Hr Hs Hc H0.
  destruct (Z_lt_le_dec n 0) as [Hneg | Hnn].
  - assert (H : (d * t < d * 1)%Z) by lia.
    apply Z.mul_lt_mono_pos_l in H; lia.
  - specialize (Hs Hnn).
    assert (H : (d * t < d * c)%Z) by lia.
    apply Z.mul_lt_mono_pos_l in H; lia.
Qed.

(** Evaluates a closed left-hand side. *)
Ltac eval_lhs :=
  match goal with
  | |- ?l = _ => let v := eval vm_compute in l in change l with v
  end.

(** Case analysis on the first comparison the goal branches on. *)
Ltac case_leb H :=
  match goal with
  | |- context [if (?a <=? ?b)%Z then _ else _] =>
      destruct (Z.leb_spec a b) as [H | H]; cbn [Qnum Qden] in H
  end.

(** Saturating a finite number and storing it in an [Int16Array] gives
    the saturation of its integer part. *)
Lemma clamp_store (y : Q) :
  ToInt16 (Math_max (num_of_Z (-32768)) (Math_min (num_of_Z 32767) (Finite y)))
  = clamp16 (Qtruncate y).
Proof.
  destruct y as [n dp].
  unfold num_of_Z, Math_min, Math_max, Qle_bool, clamp16, Qtruncate.
  cbn [Qnum Qden inject_Z].
  pose proof (Pos2Z.is_pos dp) as Hpos.
  pose proof (Z.quot_rem' n (Zpos dp)) as Hqr.
  assert (Hrem : (Z.abs (Z.rem n (Zpos dp)) < Zpos dp)%Z).
  { pose proof (Z.rem_bound_abs n (Zpos dp)). lia. }
  assert (Hnn : (0 <= n -> 0 <= Z.rem n (Zpos dp))%Z)
    by (intros; apply Z.rem_nonneg; lia).
  assert (Hnp : (n <= 0 -> Z.rem n (Zpos dp) <= 0)%Z)
    by (intros; apply Z.rem_nonpos; lia).
  case_leb Hhi.
  - assert (32767 <= Z.quot n (Zpos dp))%Z
      by (eapply quot_lower; eauto; lia).
    eval_lhs. lia.
  - case_leb Hlo.
    + assert (Hrange : (-32768 <= Z.quot n (Zpos dp) < 32767)%Z).
      { split; [eapply quot_lower | eapply quot_upper_strict]; eauto; lia. }
      unfold ToInt16, Qtruncate. cbn [Qnum Qden].
      set (t := Z.quot n (Zpos dp)) in *.
      assert (Hmod : (t mod 65536 = t \/ t mod 65536 = t + 65536)%Z).
      { destruct (Z_lt_le_dec t 0).
        - right. symmetry. apply (Z.mod_unique _ _ (-1)); lia.
        - left. apply Z.mod_small. lia. }
      destruct (Z.leb_spec 32768 (t mod 65536)); lia.
    + assert (Z.quot n (Zpos dp) <= -32768)%Z
        by (eapply quot_upper; eauto; lia).
      eval_lhs. lia.
Qed.

(** On a finite sample the stored value is the product, cut toward zero
    and saturated. *)
Lemma pcm_sample_finite (q : Q) :
  pcm_sample (Finite q) = clamp16 (Qtruncate (q * 32768)).
Proof. unfold pcm_sample. apply clamp_store. Qed.

(** C2 fails as worded: the product [0.75] (sample [3/131072], a binary32
    value) rounds to [1], while the code stores [0]; likewise [-0.75]
    rounds to [-1] and is stored as [0]. *)
Lemma encoder_does_not_round :
  pcm_sample (Finite (3 # 131072)) = 0%Z /\
  spec_sample16 (3 # 131072) = 1%Z /\
  pcm_sample (Finite (-3 # 131072)) = 0%Z /\
  spec_sample16 (-3 # 131072) = (-1)%Z /\
  ~ (forall q : Q, pcm_sample (Finite q) = spec_sample16 q).
Proof.
  do 4 (split; [vm_compute; reflexivity |]).
  intros H. specialize (H (3 # 131072)). vm_compute in H. discriminate H.
Qed.

(** C2, amended.  Each sample is multiplied by 32768, saturated to
    [-32768 .. 32767] and cut toward zero (not rounded) by the store into
    the [Int16Array]; [NaN] is stored as 0 and the infinities saturate.
    In particular 1.5 gives 32767, -1.5 gives -32768 and 0.0 gives 0.  On
    an open socket the payload sent is the encoding of the frame,
    elementwise and in order, hence of the same length. *)
Theorem encoder_truncates_and_clamps :
  (forall q : Q, pcm_sample (Finite q) = clamp16 (Qtruncate (q * 32768))) /\
  pcm_sample NaN = 0%Z /\
  pcm_sample (Infinity false) = 32767%Z /\
  pcm_sample (Infinity true) = (-32768)%Z /\
  pcm_sample (Finite (3 # 2)) = 32767%Z /\
  pcm_sample (Finite (-3 # 2)) = (-32768)%Z /\
  pcm_sample (Finite 0) = 0%Z /\
  forall (w : World) (audioData : list number),
    ws_is_open w = true ->
    trace (sendAudioData audioData w) =
      trace w ++ [(clock w, ws_send (Binary (map pcm_sample audioData)))] /\
    length (map pcm_sample audioData) = length audioData /\
    forall i x, audioData !! i = Some x ->
                map pcm_sample audioData !! i = Some (pcm_sample x).
Proof.
  split; [exact pcm_sample_finite |].
  do 6 (split; [vm_compute; reflexivity |]).
  intros w audioData Hopen. unfold sendAudioData. rewrite Hopen.
  split; [reflexivity | split; [apply length_map |]].
  intros i x Hx. change (map pcm_sample audioData) with (pcm_sample <$> audioData).
  rewrite list_lookup_fmap, Hx. reflexivity.
Qed.

Lemma encoder_truncates_and_clamps_witness :
  trace (sendAudioData [Finite (3 # 2); Finite (-3 # 2); Finite 0]
           (connect env_real page)) =
  trace (connect env_real page) ++
    [(clock (connect env_real page),
      ws_send (Binary (map pcm_sample [Finite (3 # 2); Finite (-3 # 2); Finite 0])))].
Proof.
  destruct encoder_truncates_and_clamps as (_ & _ & _ & _ & _ & _ & _ & H).
  apply (H (connect env_real page)). reflexivity.
Defined.

(** The payload of that frame. *)
Example encoder_payload :
  map pcm_sample [Finite (3 # 2); Finite (-3 # 2); Finite 0; Finite (1 # 2);
                  Finite (-1 # 3); NaN]
  = [32767; -32768; 0; 16384; -10922; 0]%Z.
Proof. vm_compute. reflexivity. Qed.

(** ** Sends on a transport that is not open *)

Lemma ws_is_open_false_iff (w : World) :
  ws_is_open w = false <->
  ws w = None \/ exists s, ws w = Some s /\ readyState s <> OPEN.
Proof.
  unfold ws_is_open. destruct (ws w) as [[r] |]; simpl.
  - destruct r; split; intros H; try discriminate; try reflexivity;
      try (right; eexists; split; [reflexivity | discriminate]).
    destruct H as [H | (s & Hs & Hne)]; [discriminate |].
    injection Hs as <-. now contradiction Hne.
  - split; auto.
Qed.

(** C7.  When [this.ws] is null or its [readyState] is not [OPEN],
    [sendAudioData] and [sendControlMessage] return without doing
    anything: the world, and so the trace of platform calls, the status
    and every field of the client, is exactly what it was. *)
Theorem send_is_noop_unless_open (w : World) :
  (ws w = None \/ exists s, ws w = Some s /\ readyState s <> OPEN) ->
  (forall audioData, sendAudioData audioData w = w) /\
  (forall message, sendControlMessage message w = w).
Proof.
  intros H. apply ws_is_open_false_iff in H.
  unfold sendAudioData, sendControlMessage. rewrite H. split; reflexivity.
Qed.

Lemma send_is_noop_unless_open_witness :
  sendAudioData [Finite 0]
    (set_ws (Some {| readyState := CLOSING |}) (connect env_real page))
  = set_ws (Some {| readyState := CLOSING |}) (connect env_real page).
Proof.
  refine (proj1 (send_is_noop_unless_open _ _) [Finite 0]).
  right. exists {| readyState := CLOSING |}. split; [reflexivity | discriminate].
Defined.

(** ** Teardown *)

(** Opens a world and splits on which of its five handles are null. *)
Ltac by_cases_on_handles w :=
  let s := fresh "s" in let c := fresh "c" in let m := fresh "m" in
  let n := fresh "n" in let i := fresh "i" in
  destruct w as [s c m n ? ? i ? ? ? ? ? ? ? ? ? ?];
  destruct s, c, m, n, i.

Lemma cleanup_released (w : World) : released (cleanup w).
Proof.
  unfold released. by_cases_on_handles w; vm_compute; repeat split.
Qed.

Lemma cleanup_idempotent (w : World) : cleanup (cleanup w) = cleanup w.
Proof.
  by_cases_on_handles w; vm_compute; reflexivity.
Qed.

Lemma existsb_filter_out (id : positive) (ts : list (positive * Interval)) :
  existsb (fun t => Pos.eqb (fst t) id)
    (List.filter (fun t => negb (Pos.eqb (fst t) id)) ts) = false.
Proof.
  induction ts as [| t ts IH]; simpl; [reflexivity |].
  destruct (Pos.eqb (fst t) id) eqn:E; simpl; [exact IH |].
  now rewrite E, IH.
Qed.

Lemma cleanup_timers (w : World) :
  timers (cleanup w) =
  match mockAudioInterval w with
  | Some id => List.filter (fun t => negb (Pos.eqb (fst t) id)) (timers w)
  | None => timers w
  end.
Proof.
  by_cases_on_handles w; vm_compute; reflexivity.
Qed.

Lemma cleanup_cancels_mock_timer (w : World) (id : positive) :
  mockAudioInterval w = Some id -> timer_live id (cleanup w) = false.
Proof.
  intros H. unfold timer_live. rewrite cleanup_timers, H.
  apply existsb_filter_out.
Qed.

Lemma cleanup_trace (w : World) :
  trace (cleanup w) = trace w ++ stamp (clock w) (release_calls w).
Proof.
  by_cases_on_handles w; cbv -[app]; rewrite <- ?app_assoc; cbn [app];
    rewrite ?app_nil_r; reflexivity.
Qed.

Lemma disconnect_trace (w : World) :
  trace (disconnect w) = trace w ++ stamp (clock w) (release_calls w).
Proof.
  by_cases_on_handles w; cbv -[app]; rewrite <- ?app_assoc; cbn [app];
    rewrite ?app_nil_r; reflexivity.
Qed.

(** C5 fails as worded: not every timer is released.  On the mock path
    the page has the heartbeat timer (id 1) and the mock timer (id 2);
    after [cleanup], once or twice, every handle is null and the mock
    timer is gone, but the heartbeat timer is still live. *)
Lemma cleanup_leaves_the_heartbeat_timer :
  released (cleanup (connect env_no_microphone page)) /\
  timers (cleanup (connect env_no_microphone page)) =
    [(1%positive, {| callback := PingTick; period := 30000; due := 30000 |})] /\
  timers (cleanup (cleanup (connect env_no_microphone page))) =
    [(1%positive, {| callback := PingTick; period := 30000; due := 30000 |})] /\
  timer_live 1 (cleanup (cleanup (connect env_no_microphone page))) = true /\
  timer_live 1 (disconnect (disconnect (connect env_no_microphone page))) = true.
Proof. unfold released. repeat split; vm_compute; reflexivity. Qed.

(** C5, amended.  [cleanup] twice is [cleanup] once, and [disconnect]
    twice is [disconnect] once: the second call changes nothing and makes
    no platform call.  Both are total (no path throws).  The first call
    makes exactly the release calls owed for the handles the session
    holds, in order ([ws.close], the node's [disconnect], the context's
    [close], the track's [stop]), cancels the timer behind the mock
    handle and no other, and nulls every handle; the client is then not
    connected, and after [disconnect] the status reads disconnected.
    Timers the session holds no handle to are left alone. *)
Theorem cleanup_is_idempotent (w : World) :
  cleanup (cleanup w) = cleanup w /\
  disconnect (disconnect w) = disconnect w /\
  trace (cleanup (cleanup w)) = trace (cleanup w) /\
  trace (cleanup w) = trace w ++ stamp (clock w) (release_calls w) /\
  trace (disconnect w) = trace w ++ stamp (clock w) (release_calls w) /\
  timers (cleanup w) = without_timer (mockAudioInterval w) (timers w) /\
  released (cleanup w) /\ isConnected (cleanup w) = false /\
  released (disconnect w) /\ isConnected (disconnect w) = false /\
  statusClass (disconnect w) = disconnected /\
  (forall id, mockAudioInterval w = Some id -> timer_live id (cleanup w) = false).
Proof.
  split; [apply cleanup_idempotent |].
  split; [by_cases_on_handles w; vm_compute; reflexivity |].
  split; [now rewrite cleanup_idempotent |].
  split; [apply cleanup_trace |].
  split; [apply disconnect_trace |].
  split; [apply cleanup_timers |].
  split; [apply cleanup_released |].
  split; [by_cases_on_handles w; vm_compute; reflexivity |].
  split; [unfold released; by_cases_on_handles w; vm_compute; repeat split |].
  split; [by_cases_on_handles w; vm_compute; reflexivity |].
  split; [by_cases_on_handles w; vm_compute; reflexivity |].
  apply cleanup_cancels_mock_timer.
Qed.

Lemma cleanup_is_idempotent_witness :
  timer_live 2 (cleanup (connect env_no_microphone page)) = false.
Proof.
  destruct (cleanup_is_idempotent (connect env_no_microphone page))
    as (_ & _ & _ & _ & _ & _ & _ & _ & _ & _ & _ & H).
  apply H. vm_compute. reflexivity.
Defined.

(** A teardown of a real-microphone session: four release calls, in
    order, and none the second time. *)
Example cleanup_release_calls :
  release_calls (connect env_real page) =
    [ws_close; audioWorkletNode_disconnect; audioContext_close; track_stop] /\
  release_calls (cleanup (connect env_real page)) = [].
Proof. split; vm_compute; reflexivity. Qed.

(** ** Connecting without a microphone *)

(** Normalises a goal about a world built from a record literal, keeping
    list concatenation and the trace filters folded. *)
Ltac run_model :=
  cbv -[app List.filter length Nat.add is_WebSocket_new is_binary_send
        is_visualizer_update is_ping is_send String.append].

Ltac count_trace :=
  repeat rewrite List.filter_app; repeat rewrite length_app; simpl.

(** C4 fails as worded: with the microphone refused the client falls back
    to the mock source, constructs the WebSocket and ends connected. *)
Lemma microphone_failure_still_connects :
  getUserMedia env_no_microphone = Throws "Permission denied" /\
  isConnected page = false /\ statusClass page = disconnected /\
  sockets_opened page = 0%nat /\
  sockets_opened (connect env_no_microphone page) = 1%nat /\
  isConnected (connect env_no_microphone page) = true /\
  statusClass (connect env_no_microphone page) = connected.
Proof. repeat split; vm_compute; reflexivity. Qed.

(** C4, amended.  When the microphone request fails the client falls
    back to the mock source.  Only if the fallback fails too (its
    [AudioContext] cannot be created) does audio initialisation fail:
    then no WebSocket is constructed and no timer registered, [connect]
    ends not connected with the status disconnected, and [cleanup] has
    run in full: the release calls owed for the handles held before are
    made, the timer behind the old mock handle is cancelled, every handle
    is null.  If the fallback succeeds, the mock source is set up (its
    20 ms timer registered under a fresh id, the handle pointing to it, a
    new audio context in place) and exactly one WebSocket is constructed;
    the session is connected exactly when the handshake succeeds, and if
    it does not, [cleanup] closes the socket and the context and cancels
    the mock timer again. *)
Theorem connect_after_microphone_failure (env : Env) (w : World) (m : string) :
  getUserMedia env = Throws m ->
  match mockAudioContext env with
  | Throws m' =>
      isConnected (connect env w) = false /\
      statusClass (connect env w) = disconnected /\
      sockets_opened (connect env w) = sockets_opened w /\
      released (connect env w) /\
      isMuted (connect env w) = false /\
      nextTimerId (connect env w) = nextTimerId w /\
      timers (connect env w) = without_timer (mockAudioInterval w) (timers w) /\
      trace (connect env w) =
        trace w ++
        stamp (clock w)
          [getUserMedia_call;
           console_warn "Real microphone not available, using mock audio:";
           AudioContext_new; console_error "Connection failed:"] ++
        stamp (clock w) (release_calls w)
  | Normal =>
      sockets_opened (connect env w) = S (sockets_opened w) /\
      isConnected (connect env w) = handshake env /\
      nextTimerId (connect env w) = Pos.succ (nextTimerId w) /\
      if handshake env
      then statusClass (connect env w) = connected /\
           mockAudioInterval (connect env w) = Some (nextTimerId w) /\
           timers (connect env w) = timers w ++ [new_mock_timer w] /\
           audioContext (connect env w) = Some AudioContextHandle /\
           trace (connect env w) =
             trace w ++
             stamp (clock w)
               [getUserMedia_call;
                console_warn "Real microphone not available, using mock audio:";
                AudioContext_new;
                console_log "Mock audio mode: simulating audio input for testing";
                WebSocket_new; console_log "WebSocket connected";
                ws_send (Text msg_ready)]
      else statusClass (connect env w) = disconnected /\
           released (connect env w) /\
           isMuted (connect env w) = false /\
           timers (connect env w) =
             without_timer (Some (nextTimerId w)) (timers w ++ [new_mock_timer w]) /\
           trace (connect env w) =
             trace w ++
             stamp (clock w)
               [getUserMedia_call;
                console_warn "Real microphone not available, using mock audio:";
                AudioContext_new;
                console_log "Mock audio mode: simulating audio input for testing";
                WebSocket_new; console_error "WebSocket error:";
                console_error "Connection failed:"] ++
             stamp (clock w)
               (release_calls
                  (set_ws (Some {| readyState := CLOSED |})
                     (set_audioContext (Some AudioContextHandle) w)))
  end.
Proof.
  destruct env as [g r a k h]. cbn [getUserMedia mockAudioContext handshake].
  intros ->. unfold released, sockets_opened.
  destruct k as [| mk], h; by_cases_on_handles w;
    cbv -[app List.filter length Nat.add is_WebSocket_new Pos.eqb Pos.succ];
    rewrite <- ?app_assoc; cbn [app];
    repeat rewrite List.filter_app; repeat rewrite length_app; simpl;
    repeat split; try reflexivity; try lia.
Qed.

Lemma connect_after_microphone_failure_witness :
  isConnected (connect env_no_audio page) = false /\
  statusClass (connect env_no_audio page) = disconnected /\
  sockets_opened (connect env_no_audio page) = sockets_opened page /\
  released (connect env_no_audio page).
Proof.
  destruct (connect_after_microphone_failure env_no_audio page "Permission denied"
              eq_refl) as (H1 & H2 & H3 & H4 & _).
  repeat split; assumption.
Defined.

(** The fallback at work: the mock timer is live after the connect. *)
Example fallback_registers_the_mock_timer :
  mockAudioInterval (connect env_no_microphone page) = Some 2%positive /\
  timer_live 2 (connect env_no_microphone page) = true /\
  timer_live 2 page = false.
Proof. repeat split; vm_compute; reflexivity. Qed.

(** ** The mute flag across teardown *)

Lemma cleanup_isMuted (w : World) : isMuted (cleanup w) = false.
Proof. by_cases_on_handles w; vm_compute; reflexivity. Qed.

Lemma cleanup_isConnected (w : World) : isConnected (cleanup w) = false.
Proof. by_cases_on_handles w; vm_compute; reflexivity. Qed.

Lemma initializeAudio_isMuted (env : Env) (w : World) :
  isMuted (fst (initializeAudio env w)) = isMuted w.
Proof. destruct env as [[|?] [|?] [|?] [|?] h]; reflexivity. Qed.

Lemma connectWebSocket_isMuted (env : Env) (w : World) :
  isMuted (fst (connectWebSocket env w)) = isMuted w.
Proof. destruct env as [g r a k [|]]; reflexivity. Qed.

(** [connect] either ends in [cleanup] or ends connected with the mute
    flag it started with. *)
Lemma connect_cases (env : Env) (w : World) :
  (exists x, connect env w = cleanup x) \/
  (isConnected (connect env w) = true /\ isMuted (connect env w) = isMuted w).
Proof.
  unfold connect.
  pose proof (initializeAudio_isMuted env (updateStatus connecting "接続中..." w)) as H1.
  destruct (initializeAudio env (updateStatus connecting "接続中..." w))
    as [w1 [| m1]]; [| left; eexists; reflexivity].
  pose proof (connectWebSocket_isMuted env w1) as H2.
  destruct (connectWebSocket env w1) as [w2 [| m2]]; [| left; eexists; reflexivity].
  right. split; [reflexivity |].
  change (isMuted w1 = isMuted w) in H1. change (isMuted w2 = isMuted w1) in H2.
  change (isMuted w2 = isMuted w). congruence.
Qed.

Lemma connect_isMuted (env : Env) (w : World) :
  isMuted (connect env w) = isConnected (connect env w) && isMuted w.
Proof.
  destruct (connect_cases env w) as [[x ->] | [-> ->]].
  - now rewrite cleanup_isMuted, cleanup_isConnected.
  - reflexivity.
Qed.

(** C10 fails as worded: a close coming from the transport runs no
    [cleanup]; it leaves the client disconnected and still muted, and the
    session opened next starts muted. *)
Lemma transport_close_keeps_mute :
  isMuted muted_session = true /\
  isConnected (ws_onclose muted_session) = false /\
  statusClass (ws_onclose muted_session) = disconnected /\
  isConnected (connect env_real (ws_onclose muted_session)) = true /\
  isMuted (connect env_real (ws_onclose muted_session)) = true.
Proof. repeat split; vm_compute; reflexivity. Qed.

(** C10, amended.  Every call to [cleanup] sets the mute flag to false
    and the mute button's label back to its unmuted text, whatever they
    were.  [connect] itself never sets the flag, so a session opened
    after a teardown that ran [cleanup] (an explicit [disconnect], or
    a failed [connect]) starts unmuted. *)
Theorem cleanup_resets_mute (w : World) :
  isMuted (cleanup w) = false /\
  muteBtnText (cleanup w) = "ミュート"%string /\
  isMuted (disconnect w) = false /\
  muteBtnText (disconnect w) = "ミュート"%string /\
  (forall env, isMuted (connect env w) = isConnected (connect env w) && isMuted w) /\
  (forall env, isMuted (connect env (cleanup w)) = false) /\
  (forall env, isMuted (connect env (disconnect w)) = false) /\
  (forall env env',
     isMuted (connect env' (connect env w)) =
     isConnected (connect env' (connect env w)) &&
       (isConnected (connect env w) && isMuted w)).
Proof.
  assert (Hd : isMuted (disconnect w) = false)
    by (by_cases_on_handles w; vm_compute; reflexivity).
  split; [apply cleanup_isMuted |].
  split; [by_cases_on_handles w; vm_compute; reflexivity |].
  split; [exact Hd |].
  split; [by_cases_on_handles w; vm_compute; reflexivity |].
  split; [intros env; apply connect_isMuted |].
  split; [intros env; rewrite connect_isMuted, cleanup_isMuted; apply andb_false_r |].
  split; [intros env; rewrite connect_isMuted, Hd; apply andb_false_r |].
  intros env env'. now rewrite !connect_isMuted.
Qed.

(** ** Playback of an inbound payload *)



(** C8, on the code.  The socket is created without assigning
    [binaryType], so a binary frame reaches [onmessage] as a [Blob]; it
    fails the [ArrayBuffer] test, goes to [JSON.parse], and the handler
    throws: [playAudioResponse] is not called, the decoder is not called,
    the status does not become speaking, and the world is left exactly as
    it was.  Only data that is an [ArrayBuffer] would be played. *)
Theorem inbound_binary_frame_is_not_played (w : World) :
  event_data BinaryFrame = BlobData /\
  ws_receive BinaryFrame w = (w, Throws "SyntaxError") /\
  statusClass (fst (ws_receive BinaryFrame w)) = statusClass w /\
  trace (fst (ws_receive BinaryFrame w)) = trace w /\
  (forall o, ws_onmessage (ArrayBufferData o) w = (playAudioResponse o w, Normal)).
Proof. repeat split; reflexivity. Qed.

(** On a connected session: the frame changes nothing, where a direct
    call of [playAudioResponse] sets the status to speaking. *)
Example binary_frame_on_a_connected_session :
  statusClass (connect env_real page) = connected /\
  statusClass (fst (ws_receive BinaryFrame (connect env_real page))) = connected /\
  snd (ws_receive BinaryFrame (connect env_real page)) = Throws "SyntaxError" /\
  statusClass (playAudioResponse (Decoded Normal) (connect env_real page)) = speaking.
Proof. repeat split; vm_compute; reflexivity. Qed.

(** ** Simulated time: what the timer callbacks can change *)

Lemma advance_succ (rnd : Random) (n : N) (w : World) :
  advance rnd (N.succ n) w = tick_ms rnd (advance rnd n w).
Proof. unfold advance. apply N.iter_succ. Qed.

Lemma advance_add (rnd : Random) (a b : N) (w : World) :
  advance rnd (a + b) w = advance rnd b (advance rnd a w).
Proof. unfold advance. rewrite N.add_comm. apply N.iter_add. Qed.

Section Preservation.

Variable rnd : Random.
Variable P : World -> Prop.
Hypothesis P_callback : forall cb w, P w -> P (run_callback rnd cb w).
Hypothesis P_clock : forall c w, P w -> P (set_clock c w).
Hypothesis P_timers : forall ts w, P w -> P (set_timers ts w).

Lemma fire_due_preserves (ts : list (positive * Interval)) :
  forall w, P w -> P (fire_due rnd ts w).
Proof.
  unfold fire_due. induction ts as [| t ts IH]; intros w Hw; cbn [fold_left].
  - exact Hw.
  - apply IH. destruct (due (snd t) =? clock w)%N; auto.
Qed.

Lemma tick_ms_preserves (w : World) : P w -> P (tick_ms rnd w).
Proof.
  intros Hw. unfold tick_ms. apply P_timers, fire_due_preserves, P_clock, Hw.
Qed.

Lemma advance_preserves (n : N) (w : World) : P w -> P (advance rnd n w).
Proof.
  intros Hw. induction n as [| n IH] using N.peano_ind.
  - exact Hw.
  - rewrite advance_succ. now apply tick_ms_preserves.
Qed.

End Preservation.

(** A callback leaves the session, the clock and the timers alone. *)
Lemma run_callback_frame (rnd : Random) (cb : Callback) (w : World) :
  session_kept w (run_callback rnd cb w) /\
  clock (run_callback rnd cb w) = clock w.
Proof.
  unfold session_kept.
  destruct cb; cbn [run_callback]; unfold mockAudioTick, pingTick,
    sendAudioData, sendControlMessage;
    repeat match goal with
           | |- context [if ?b then _ else _] => destruct b eqn:?
           end; repeat split; try reflexivity; cbn; congruence.
Qed.

Lemma mockAudioTick_muted (rnd : Random) (w : World) :
  isMuted w = true -> mockAudioTick rnd w = w.
Proof. intros H. unfold mockAudioTick. now rewrite H. Qed.

Lemma mockAudioTick_not_connected (rnd : Random) (w : World) :
  isConnected w = false -> mockAudioTick rnd w = w.
Proof. intros H. unfold mockAudioTick. rewrite H. now destruct (isMuted w). Qed.

Lemma pingTick_not_connected (w : World) :
  isConnected w = false -> pingTick w = w.
Proof. intros H. unfold pingTick. now rewrite H. Qed.

Lemma port_onmessage_muted (type : string) (data : list number) (w : World) :
  isMuted w = true -> port_onmessage type data w = w.
Proof.
  intros H. unfold port_onmessage. rewrite H.
  now rewrite andb_false_r.
Qed.

(** ** Mute gating *)

(** While muted, time adds no binary send and no visualizer call. *)
Lemma advance_muted (rnd : Random) (n : N) (w : World) :
  isMuted w = true ->
  isMuted (advance rnd n w) = true /\
  binary_sends (advance rnd n w) = binary_sends w /\
  visualizer_updates (advance rnd n w) = visualizer_updates w.
Proof.
  intros Hm.
  apply (advance_preserves rnd
           (fun x => isMuted x = true /\ binary_sends x = binary_sends w /\
                     visualizer_updates x = visualizer_updates w));
    [| auto | auto | auto].
  intros cb x (Hx & Hb & Hv). destruct cb; cbn [run_callback].
  - now rewrite mockAudioTick_muted.
  - unfold pingTick, sendControlMessage.
    destruct (isConnected x); [| auto]. destruct (ws_is_open x); [| auto].
    unfold binary_sends, visualizer_updates, emit in *. cbn [trace set_trace isMuted].
    rewrite !List.filter_app. cbn. rewrite !app_nil_r. auto.
Qed.

(** C3 fails as worded: a frame that arrives while muted is not passed
    to the visualizer, on the real path and on the mock path alike. *)
Lemma muted_frame_is_not_visualized :
  isMuted muted_session = true /\
  visualizer_updates (port_onmessage "audioData" [Finite 0] muted_session) = [] /\
  isMuted muted_mock_session = true /\
  visualizer_updates (mockAudioTick silence muted_mock_session) = [] /\
  visualizer_updates (advance silence 20 muted_mock_session) = [].
Proof. repeat split; vm_compute; reflexivity. Qed.

(** C3, amended.  While the session is muted the worklet goes on
    accumulating and posting frames, but the client drops each posted
    frame whole: it is not sent, not passed to the visualizer, and the
    status is not changed.  The mock source generates no frame at all.
    Over any sequence of posted frames and elapsed time no binary send
    and no visualizer call is added. *)
Theorem muted_frames_are_dropped (w : World) :
  isMuted w = true ->
  (forall type data, port_onmessage type data w = w) /\
  (forall rnd, mockAudioTick rnd w = w) /\
  (forall o deliveries,
     length (AudioProcessor.frames o deliveries) =
       (length (concat (map AudioProcessor.samples_of deliveries))
        / AudioProcessor.frameSize_of_option o)%nat /\
     deliver_frames (AudioProcessor.frames o deliveries) w = w) /\
  (forall rnd es,
     isMuted (capture_run rnd es w) = true /\
     binary_sends (capture_run rnd es w) = binary_sends w /\
     visualizer_updates (capture_run rnd es w) = visualizer_updates w).
Proof.
  intros Hm.
  split; [intros; now apply port_onmessage_muted |].
  split; [intros; now apply mockAudioTick_muted |].
  split.
  - intros o deliveries. split.
    + apply (frames_are_input_prefix o deliveries).
    + unfold deliver_frames.
      induction (AudioProcessor.frames o deliveries) as [| f fs IH];
        cbn [fold_left]; [reflexivity |].
      now rewrite port_onmessage_muted.
  - intros rnd es. unfold capture_run.
    assert (G : forall x, isMuted x = true ->
      isMuted (fold_left (capture_step rnd) es x) = true /\
      binary_sends (fold_left (capture_step rnd) es x) = binary_sends x /\
      visualizer_updates (fold_left (capture_step rnd) es x) = visualizer_updates x).
    { induction es as [| e es IH]; intros x Hx; cbn [fold_left]; [auto |].
      destruct e as [data | ms]; cbn [capture_step].
      - rewrite port_onmessage_muted by exact Hx. now apply IH.
      - destruct (advance_muted rnd ms x Hx) as (H1 & H2 & H3).
        destruct (IH _ H1) as (H4 & H5 & H6). repeat split; congruence. }
    now apply G.
Qed.

Lemma muted_frames_are_dropped_witness :
  port_onmessage "audioData" [Finite 0] muted_session = muted_session.
Proof.
  assert (H : isMuted muted_session = true) by (vm_compute; reflexivity).
  exact (proj1 (muted_frames_are_dropped muted_session H) "audioData"%string [Finite 0]).
Defined.

(** ** Timers after teardown *)

(** Once not connected, the passing of time makes no platform call. *)
Lemma advance_not_connected (rnd : Random) (n : N) (w : World) :
  isConnected w = false ->
  isConnected (advance rnd n w) = false /\ trace (advance rnd n w) = trace w.
Proof.
  intros Hc.
  apply (advance_preserves rnd
           (fun x => isConnected x = false /\ trace x = trace w));
    [| auto | auto | auto].
  intros cb x (Hx & Ht). destruct cb; cbn [run_callback].
  - now rewrite mockAudioTick_not_connected.
  - now rewrite pingTick_not_connected.
Qed.

Lemma In_filter_other (id : positive) (ts : list (positive * Interval))
    (t : positive * Interval) :
  In t ts -> fst t <> id ->
  In t (List.filter (fun t => negb (Pos.eqb (fst t) id)) ts).
Proof.
  intros Hin Hne. apply List.filter_In. split; [exact Hin |].
  apply negb_true_iff, Pos.eqb_neq, Hne.
Qed.

(** C9 fails as worded: on the mock path the page has two timers, the
    heartbeat (id 1) and the mock source (id 2); [cleanup] cancels only
    the second.  The heartbeat timer stays live and fires 30 s later, when
    it is rescheduled. *)
Lemma heartbeat_timer_survives_cleanup :
  timers (connect env_no_microphone page) =
    [(1%positive, {| callback := PingTick; period := 30000; due := 30000 |});
     (2%positive, {| callback := MockAudioTick; period := 20; due := 20 |})] /\
  timers (cleanup (connect env_no_microphone page)) =
    [(1%positive, {| callback := PingTick; period := 30000; due := 30000 |})] /\
  timer_live 1 (cleanup (connect env_no_microphone page)) = true /\
  timers (advance silence 30000 (cleanup (connect env_no_microphone page))) =
    [(1%positive, {| callback := PingTick; period := 30000; due := 60000 |})].
Proof. repeat split; vm_compute; reflexivity. Qed.

(** C9, amended.  [cleanup] cancels the mock-frame timer whose handle
    the session holds and nulls the handle; it cancels no other timer, so
    the heartbeat timer, whose id was never kept, stays live and keeps
    firing.  Its callback is gated on [isConnected], which [cleanup] sets
    to false: after [cleanup] neither callback does anything, and the
    passing of time makes no platform call at all. *)
Theorem cleanup_cancels_only_the_mock_timer (w : World) :
  mockAudioInterval (cleanup w) = None /\
  (forall id, mockAudioInterval w = Some id -> timer_live id (cleanup w) = false) /\
  (forall t, In t (timers w) -> mockAudioInterval w <> Some (fst t) ->
             In t (timers (cleanup w))) /\
  pingTick (cleanup w) = cleanup w /\
  (forall rnd, mockAudioTick rnd (cleanup w) = cleanup w) /\
  (forall rnd ms, trace (advance rnd ms (cleanup w)) = trace (cleanup w)).
Proof.
  split; [apply cleanup_released |].
  split; [apply cleanup_cancels_mock_timer |].
  split.
  { intros t Hin Hne. rewrite cleanup_timers.
    destruct (mockAudioInterval w) as [id |]; [| exact Hin].
    apply In_filter_other; [exact Hin | congruence]. }
  split; [apply pingTick_not_connected, cleanup_isConnected |].
  split; [intros; apply mockAudioTick_not_connected, cleanup_isConnected |].
  intros rnd ms. apply advance_not_connected, cleanup_isConnected.
Qed.

Lemma cleanup_cancels_only_the_mock_timer_witness :
  timer_live 2 (cleanup (connect env_no_microphone page)) = false /\
  In (1%positive, {| callback := PingTick; period := 30000; due := 30000 |})
     (timers (cleanup (connect env_no_microphone page))).
Proof.
  pose proof (cleanup_cancels_only_the_mock_timer (connect env_no_microphone page))
    as (_ & H2 & H3 & _).
  split.
  - apply H2. vm_compute. reflexivity.
  - apply H3.
    + vm_compute. left. reflexivity.
    + vm_compute. discriminate.
Defined.

(** ** Heartbeat *)

Lemma filter_ping_due (c : N) (ts : list (positive * Interval)) :
  List.filter (fun t => is_ping_timer t && (due (snd t) =? c)%N) ts =
  List.filter (fun t => (due (snd t) =? c)%N) (List.filter is_ping_timer ts).
Proof.
  induction ts as [| t ts IH]; cbn [List.filter]; [reflexivity |].
  destruct (is_ping_timer t); cbn [andb List.filter]; [| exact IH].
  destruct (due (snd t) =? c)%N; now rewrite IH.
Qed.

Lemma filter_ping_reschedule (c : N) (ts : list (positive * Interval)) :
  List.filter is_ping_timer (map (reschedule c) ts) =
  map (reschedule c) (List.filter is_ping_timer ts).
Proof.
  induction ts as [| t ts IH]; cbn [List.filter map]; [reflexivity |].
  assert (E : is_ping_timer (reschedule c t) = is_ping_timer t).
  { unfold reschedule. now destruct (due (snd t) =? c)%N. }
  rewrite E. destruct (is_ping_timer t); cbn [map]; now rewrite IH.
Qed.

Lemma ws_is_open_kept (w w' : World) : ws w' = ws w -> ws_is_open w' = ws_is_open w.
Proof. unfold ws_is_open. now intros ->. Qed.

(** What one callback adds to the pings of a connected session. *)
Lemma run_callback_ping_times (rnd : Random) (cb : Callback) (w : World) :
  isConnected w = true -> ws_is_open w = true ->
  ping_times (run_callback rnd cb w) =
  ping_times w ++ match cb with PingTick => [clock w] | MockAudioTick => [] end.
Proof.
  intros Hc Ho. unfold ping_times.
  destruct cb; cbn [run_callback]; unfold mockAudioTick, pingTick,
    sendAudioData, sendControlMessage, updateAudioVisualizer, emit.
  - destruct (negb (isMuted w) && isConnected w); [| now rewrite app_nil_r].
    cbn [draws set_draws]. change (ws_is_open (set_draws _ w)) with (ws_is_open w).
    rewrite Ho. destruct (belowTenth rnd _); cbn [trace set_trace set_draws
      updateStatus set_statusText set_statusClass clock];
      rewrite !List.filter_app; cbn; now rewrite !app_nil_r.
  - rewrite Hc, Ho. cbn [trace set_trace]. rewrite List.filter_app, map_app.
    reflexivity.
Qed.

Lemma fire_due_ping_times (rnd : Random) (ts : list (positive * Interval)) :
  forall w, isConnected w = true -> ws_is_open w = true ->
  ping_times (fire_due rnd ts w) =
    ping_times w ++
    map (fun _ => clock w)
      (List.filter (fun t => is_ping_timer t && (due (snd t) =? clock w)%N) ts) /\
  session_kept w (fire_due rnd ts w) /\
  clock (fire_due rnd ts w) = clock w.
Proof.
  unfold fire_due.
  induction ts as [| t ts IH]; intros w Hc Ho; cbn [fold_left List.filter].
  - rewrite app_nil_r. unfold session_kept. now repeat split.
  - set (w1 := if (due (snd t) =? clock w)%N
               then run_callback rnd (callback (snd t)) w else w).
    assert (H1 : session_kept w w1 /\ clock w1 = clock w /\
                 ping_times w1 = ping_times w ++
                   (if is_ping_timer t && (due (snd t) =? clock w)%N
                    then [clock w] else [])).
    { unfold w1, is_ping_timer. destruct (due (snd t) =? clock w)%N.
      - destruct (run_callback_frame rnd (callback (snd t)) w) as [Hk Hcl].
        split; [exact Hk | split; [exact Hcl |]].
        rewrite run_callback_ping_times by assumption.
        now destruct (callback (snd t)).
      - rewrite andb_false_r, app_nil_r. unfold session_kept. now repeat split. }
    destruct H1 as (Hk & Hcl & Hp).
    assert (Hc1 : isConnected w1 = true)
      by (transitivity (isConnected w); [apply Hk | exact Hc]).
    assert (Ho1 : ws_is_open w1 = true).
    { rewrite (ws_is_open_kept w w1); [exact Ho | apply Hk]. }
    destruct (IH w1 Hc1 Ho1) as (IHp & IHk & IHc).
    rewrite Hcl in IHp, IHc. rewrite IHp, Hp, <- app_assoc.
    split; [| split; [| exact IHc]].
    + f_equal. now destruct (is_ping_timer t && (due (snd t) =? clock w)%N).
    + unfold session_kept in *. intuition congruence.
Qed.

(** One millisecond of a connected session with its heartbeat armed. *)
Lemma tick_ms_heartbeat (rnd : Random) (d : N) (w : World) :
  heartbeat_armed d w ->
  clock (tick_ms rnd w) = (clock w + 1)%N /\
  if (d =? clock w + 1)%N
  then heartbeat_armed (d + 30000) (tick_ms rnd w) /\
       ping_times (tick_ms rnd w) = ping_times w ++ [d]
  else heartbeat_armed d (tick_ms rnd w) /\
       ping_times (tick_ms rnd w) = ping_times w.
Proof.
  intros (Hc & Ho & id & Hp). unfold tick_ms.
  set (w1 := set_clock (clock w + 1) w).
  destruct (fire_due_ping_times rnd (timers w1) w1 Hc Ho) as (Hpt & Hk & Hcl).
  set (w2 := fire_due rnd (timers w1) w1) in *.
  change (clock w1) with (clock w + 1)%N in *.
  change (timers w1) with (timers w) in Hpt.
  change (ping_times w1) with (ping_times w) in Hpt.
  assert (Ht : timers w2 = timers w) by apply Hk.
  assert (Hc2 : isConnected w2 = true)
    by (transitivity (isConnected w1); [apply Hk | exact Hc]).
  assert (Ho2 : ws_is_open w2 = true).
  { rewrite (ws_is_open_kept w1 w2); [exact Ho | apply Hk]. }
  rewrite Hcl, Ht.
  split; [exact Hcl |].
  rewrite filter_ping_due in Hpt. unfold ping_timers in Hp. rewrite Hp in Hpt.
  cbn [List.filter snd due] in Hpt.
  assert (Harm : forall d',
    reschedule (clock w + 1)
      (id, {| callback := PingTick; period := 30000; due := d |}) =
      (id, {| callback := PingTick; period := 30000; due := d' |}) ->
    heartbeat_armed d'
      (set_timers (map (reschedule (clock w + 1)) (timers w)) w2)).
  { intros d' Hr. unfold heartbeat_armed. split; [exact Hc2 |].
    split; [exact Ho2 |]. exists id. unfold ping_timers. cbn [timers set_timers].
    rewrite filter_ping_reschedule, Hp. cbn [map]. now rewrite Hr. }
  change (ping_times (set_timers _ w2)) with (ping_times w2).
  destruct (N.eqb_spec d (clock w + 1)) as [-> | Hne].
  - split.
    + apply Harm. unfold reschedule. cbn [snd due fst callback period].
      now rewrite N.eqb_refl.
    + exact Hpt.
  - split.
    + apply Harm. unfold reschedule. cbn [snd due].
      destruct (N.eqb_spec d (clock w + 1)); [contradiction | reflexivity].
    + rewrite Hpt. apply app_nil_r.
Qed.

Lemma advance_quiet (rnd : Random) (d : N) (w : World) (n : N) :
  heartbeat_armed d w -> (clock w + n < d)%N ->
  heartbeat_armed d (advance rnd n w) /\
  ping_times (advance rnd n w) = ping_times w /\
  clock (advance rnd n w) = (clock w + n)%N.
Proof.
  intros Ha. induction n as [| n IH] using N.peano_ind; intros Hlt.
  - change (advance rnd 0 w) with w. rewrite N.add_0_r. auto.
  - destruct IH as (IHa & IHp & IHc); [lia |].
    rewrite advance_succ.
    destruct (tick_ms_heartbeat rnd d _ IHa) as (Hcl & Hif).
    rewrite IHc in Hcl, Hif.
    destruct (N.eqb_spec d (clock w + n + 1)) as [E | _]; [lia |].
    destruct Hif as (Ha' & Hp'). split; [exact Ha' | split; [congruence | lia]].
Qed.

Lemma advance_to_due (rnd : Random) (d : N) (w : World) (n : N) :
  heartbeat_armed d w -> (clock w + N.succ n = d)%N ->
  heartbeat_armed (d + 30000) (advance rnd (N.succ n) w) /\
  ping_times (advance rnd (N.succ n) w) = ping_times w ++ [d] /\
  clock (advance rnd (N.succ n) w) = d.
Proof.
  intros Ha Hd.
  destruct (advance_quiet rnd d w n Ha) as (Ha1 & Hp1 & Hc1); [lia |].
  rewrite advance_succ.
  destruct (tick_ms_heartbeat rnd d _ Ha1) as (Hcl & Hif).
  rewrite Hc1 in Hcl, Hif.
  destruct (N.eqb_spec d (clock w + n + 1)) as [_ | Hne]; [| lia].
  destruct Hif as (Ha' & Hp'). split; [exact Ha' | split; [congruence | lia]].
Qed.

(** A [connect] that ends connected leaves an open socket and the same
    heartbeat timers. *)
Lemma connect_connected (env : Env) (w : World) :
  isConnected (connect env w) = true ->
  ws_is_open (connect env w) = true /\
  ping_timers (connect env w) = ping_timers w.
Proof.
  assert (Hfail : forall m x, isConnected (connect_catch m x) = true -> False).
  { intros m x. unfold connect_catch. rewrite cleanup_isConnected. discriminate. }
  assert (Hsnoc : forall t, is_ping_timer t = false ->
            List.filter is_ping_timer (timers w ++ [t]) = List.filter is_ping_timer (timers w)).
  { intros t Ht. rewrite List.filter_app. cbn. rewrite Ht. apply app_nil_r. }
  destruct env as [[| g] [| r] [| a] [| k] [|]]; unfold connect;
    cbn -[connect_catch]; intros H;
    try (exfalso; exact (Hfail _ _ H));
    (split; [reflexivity |]); try reflexivity;
    unfold ping_timers; cbn; now apply Hsnoc.
Qed.

Lemma advance_not_connected_pings (rnd : Random) (ms : N) (w : World) :
  isConnected w = false -> ping_times (advance rnd ms w) = ping_times w.
Proof.
  intros H. unfold ping_times.
  now rewrite (proj2 (advance_not_connected rnd ms w H)).
Qed.

Lemma three_pings (rnd : Random) (d : N) (w : World) :
  heartbeat_armed d w -> (clock w < d <= clock w + 30000)%N ->
  ping_times (advance rnd 90000 w) = ping_times w ++ [d; d + 30000; d + 60000]%N.
Proof.
  intros Ha [Hlo Hhi].
  replace 90000%N
    with (N.succ (d - clock w - 1) +
          (N.succ 29999 + (N.succ 29999 + (clock w + 30000 - d))))%N by lia.
  rewrite !advance_add.
  destruct (advance_to_due rnd d w (d - clock w - 1) Ha) as (Ha1 & Hp1 & Hc1);
    [lia |].
  set (w1 := advance rnd (N.succ (d - clock w - 1)) w) in *.
  destruct (advance_to_due rnd (d + 30000) w1 29999 Ha1) as (Ha2 & Hp2 & Hc2);
    [lia |].
  set (w2 := advance rnd (N.succ 29999) w1) in *.
  destruct (advance_to_due rnd (d + 30000 + 30000) w2 29999 Ha2)
    as (Ha3 & Hp3 & Hc3); [lia |].
  set (w3 := advance rnd (N.succ 29999) w2) in *.
  destruct (advance_quiet rnd _ w3 (clock w + 30000 - d) Ha3) as (_ & Hp4 & _);
    [lia |].
  rewrite Hp4, Hp3, Hp2, Hp1, <- !app_assoc. cbn [app].
  replace (d + 30000 + 30000)%N with (d + 60000)%N by lia. reflexivity.
Qed.

(** C6.  The page registers one heartbeat timer of period 30 000 ms, and
    a [connect] that succeeds leaves the socket open and that timer in
    place.  For a connected session on an open socket whose heartbeat is
    next due at [d], within the coming 30 s, the pings sent during the 90
    simulated seconds that follow are exactly three, at [d], [d + 30 s]
    and [d + 60 s].  While the client is not connected the passing of time
    sends no ping. *)
Theorem heartbeat_every_30_seconds :
  (forall l1 l2 b,
     ping_timers (DOMContentLoaded l1 l2 b) =
       [(1%positive, {| callback := PingTick; period := 30000; due := 30000 |})]) /\
  (forall env w,
     isConnected (connect env w) = true ->
     ws_is_open (connect env w) = true /\
     ping_timers (connect env w) = ping_timers w) /\
  (forall rnd d w,
     heartbeat_armed d w -> (clock w < d <= clock w + 30000)%N ->
     ping_times (advance rnd 90000 w) =
       ping_times w ++ [d; d + 30000; d + 60000]%N) /\
  (forall rnd ms w,
     isConnected w = false -> ping_times (advance rnd ms w) = ping_times w).
Proof.
  split; [reflexivity |].
  split; [exact connect_connected |].
  split; [exact three_pings | exact advance_not_connected_pings].
Qed.

Lemma heartbeat_every_30_seconds_witness :
  ping_times (advance silence 90000 (connect env_real page)) =
  ping_times (connect env_real page) ++ [30000; 30000 + 30000; 30000 + 60000]%N.
Proof.
  refine (proj1 (proj2 (proj2 heartbeat_every_30_seconds))
            silence 30000%N (connect env_real page) _ _).
  - split; [reflexivity | split; [reflexivity |]].
    exists 1%positive. reflexivity.
  - vm_compute. split; [reflexivity | discriminate].
Defined.

(** A session connected at time 0: three pings in 90 s, no fourth before
    120 s; 90 s that start at 45 s add the pings of 60, 90 and 120 s to
    the one of 30 s; none once disconnected. *)
Example heartbeat_run :
  ping_times (advance silence 90000 (connect env_real page)) = [30000; 60000; 90000]%N /\
  ping_times (advance silence 119999 (connect env_real page)) = [30000; 60000; 90000]%N /\
  ping_times (advance silence 90000 (advance silence 45000 (connect env_real page)))
    = [30000; 60000; 90000; 120000]%N /\
  ping_times (advance silence 90000 (disconnect (connect env_real page))) = [].
Proof. repeat split; vm_compute; reflexivity. Qed.

(** * Further properties *)

(** ** The worklet between frames *)

Lemma wellformed_acc_inv (p : AudioProcessor.t) :
  wellformed p ->
  acc_inv p [] (take (AudioProcessor.bufferIndex p) (AudioProcessor.buffer p)).
Proof. intros [H1 H2]. unfold acc_inv. repeat split; auto. Qed.

Lemma acc_inv_counts (p : AudioProcessor.t) (posted : list (list number))
    (seen : list number) :
  acc_inv p posted seen ->
  length posted = (length seen / AudioProcessor.frameSize p)%nat /\
  AudioProcessor.bufferIndex p = (length seen mod AudioProcessor.frameSize p)%nat.
Proof.
  intros (Hlen & Hidx & Hall & Hseen).
  assert (Hcat : length (concat posted) =
                 (AudioProcessor.frameSize p * length posted)%nat)
    by now apply length_concat_uniform.
  assert (Htot : length seen =
                 (AudioProcessor.frameSize p * length posted
                  + AudioProcessor.bufferIndex p)%nat).
  { rewrite Hseen at 1. rewrite length_app, Hcat, length_take. lia. }
  split.
  - apply (Nat.div_unique _ _ _ (AudioProcessor.bufferIndex p)); lia.
  - apply (Nat.mod_unique _ _ (length posted)); lia.
Qed.

(** X1.  After any run from the constructor the write cursor is the
    number of samples not yet posted, [total mod frameSize], and the
    front of the buffer holds exactly those samples, in arrival order: the
    input that follows the last whole frame. *)
Theorem residue_is_kept_in_order (o : option nat)
    (deliveries : list (list (list number))) :
  let frameSize := AudioProcessor.frameSize_of_option o in
  let input := concat (map AudioProcessor.samples_of deliveries) in
  let p := processor_after o deliveries in
  AudioProcessor.bufferIndex p = (length input mod frameSize)%nat /\
  take (AudioProcessor.bufferIndex p) (AudioProcessor.buffer p) =
    drop (frameSize * (length input / frameSize)) input /\
  wellformed p.
Proof.
  intros frameSize input p.
  destruct (run_inv deliveries _ [] [] (constructor_inv o)) as [Hinv Hfs].
  cbn [app] in Hinv.
  change (fst (AudioProcessor.run (AudioProcessor.constructor o) deliveries))
    with p in Hinv, Hfs.
  change (snd (AudioProcessor.run (AudioProcessor.constructor o) deliveries))
    with (AudioProcessor.frames o deliveries) in Hinv.
  change (concat (map AudioProcessor.samples_of deliveries)) with input in Hinv.
  assert (Hfs' : AudioProcessor.frameSize p = frameSize) by exact Hfs.
  destruct (acc_inv_counts _ _ _ Hinv) as [Hn Hi].
  destruct Hinv as (Hlen & Hidx & Hall & Hseen).
  rewrite Hfs' in *.
  assert (Hcat : length (concat (AudioProcessor.frames o deliveries)) =
                 (frameSize * (length input / frameSize))%nat).
  { rewrite (length_concat_uniform frameSize) by exact Hall. now rewrite Hn. }
  split; [exact Hi |].
  split; [| unfold wellformed; rewrite Hfs'; split; assumption].
  rewrite <- Hcat. rewrite Hseen at 1. now rewrite drop_app_length.
Qed.

(** Lists of blocks of one positive size with the same concatenation
    are the same list. *)
Lemma uniform_concat_inj (n : nat) (l1 : list (list number)) :
  (0 < n)%nat -> forall l2,
  Forall (fun f => length f = n) l1 -> Forall (fun f => length f = n) l2 ->
  concat l1 = concat l2 -> l1 = l2.
Proof.
  intros Hn. induction l1 as [| a l1 IH]; intros l2 H1 H2 Hc.
  - destruct l2 as [| b l2]; [reflexivity |].
    inversion_clear H2 as [| ? ? Hb _].
    cbn in Hc. destruct b; [cbn in Hb; lia | discriminate].
  - inversion_clear H1 as [| ? ? Ha H1'].
    destruct l2 as [| b l2].
    + cbn in Hc. destruct a; [cbn in Ha; lia | discriminate].
    + inversion_clear H2 as [| ? ? Hb H2']. cbn [concat] in Hc.
      apply app_inj_1 in Hc; [| congruence].
      destruct Hc as [-> Hc]. f_equal. now apply IH.
Qed.

(** X2.  The frames posted depend only on the stream of samples, not on
    how the platform cut it into deliveries. *)
Theorem frames_ignore_chunking (o : option nat)
    (d1 d2 : list (list (list number))) :
  concat (map AudioProcessor.samples_of d1) = concat (map AudioProcessor.samples_of d2) ->
  AudioProcessor.frames o d1 = AudioProcessor.frames o d2.
Proof.
  intros Heq.
  destruct (frames_are_input_prefix o d1) as (_ & Ha1 & Hc1).
  destruct (frames_are_input_prefix o d2) as (_ & Ha2 & Hc2).
  apply (uniform_concat_inj (AudioProcessor.frameSize_of_option o)); auto.
  - destruct o as [[| n] |]; cbn; lia.
  - rewrite Hc1, Hc2, Heq. reflexivity.
Qed.

Lemma frames_ignore_chunking_witness :
  AudioProcessor.frames (Some 2%nat)
    [[[num_of_Z 1; num_of_Z 2; num_of_Z 3]]; [[num_of_Z 4; num_of_Z 5]]] =
  AudioProcessor.frames (Some 2%nat)
    [[[num_of_Z 1]]; []; [[num_of_Z 2; num_of_Z 3; num_of_Z 4]; [num_of_Z 9]];
     [[num_of_Z 5]]].
Proof. apply frames_ignore_chunking. reflexivity. Defined.

(** X3.  One call of [process] on a well-formed processor holding [k]
    pending samples, given [n] new ones, posts [floor((k + n) / frameSize)]
    frames and leaves [(k + n) mod frameSize] pending; the processor
    stays well formed and keeps its frame size. *)
Theorem process_posts_per_call (p : AudioProcessor.t) (input : list (list number)) :
  wellformed p ->
  let n := length (AudioProcessor.samples_of input) in
  let k := AudioProcessor.bufferIndex p in
  let fs := AudioProcessor.frameSize p in
  length (snd (AudioProcessor.process p input)) = ((k + n) / fs)%nat /\
  AudioProcessor.bufferIndex (fst (AudioProcessor.process p input)) = ((k + n) mod fs)%nat /\
  AudioProcessor.frameSize (fst (AudioProcessor.process p input)) = fs /\
  wellformed (fst (AudioProcessor.process p input)).
Proof.
  intros Hwf n k fs.
  destruct (process_inv p [] _ input (wellformed_acc_inv p Hwf)) as [Hinv Hfs].
  cbn [app] in Hinv.
  destruct (acc_inv_counts _ _ _ Hinv) as [Hn Hi].
  rewrite length_app, length_take in Hn, Hi.
  destruct Hwf as [Hlen Hidx].
  replace (AudioProcessor.bufferIndex p `min` length (AudioProcessor.buffer p))%nat
    with k in Hn, Hi by (unfold k; lia).
  rewrite Hfs in Hn, Hi.
  split; [exact Hn |]. split; [exact Hi |]. split; [exact Hfs |].
  destruct Hinv as (H1 & H2 & _). split; assumption.
Qed.

Lemma process_posts_per_call_witness :
  length (snd (AudioProcessor.process (AudioProcessor.constructor (Some 2%nat))
                 [[num_of_Z 1; num_of_Z 2; num_of_Z 3; num_of_Z 4; num_of_Z 5]]))
  = ((0 + 5) / 2)%nat.
Proof.
  refine (proj1 (process_posts_per_call (AudioProcessor.constructor (Some 2%nat))
                   [[num_of_Z 1; num_of_Z 2; num_of_Z 3; num_of_Z 4; num_of_Z 5]] _)).
  split; [reflexivity | cbn; lia].
Defined.

(** ** The encoder as a function of the sample *)

Lemma Qtruncate_nonneg (q : Q) : (0 <= Qnum q)%Z -> Qtruncate q = Qfloor q.
Proof.
  destruct q as [n d]. unfold Qtruncate, Qfloor. cbn [Qnum Qden]. intros H.
  apply Z.quot_div_nonneg; lia.
Qed.

Lemma Qtruncate_neg (q : Q) : (Qnum q < 0)%Z -> Qtruncate q = Qceiling q.
Proof.
  destruct q as [n d]. unfold Qtruncate, Qceiling, Qfloor, Qopp.
  cbn [Qnum Qden]. intros H.
  rewrite <- (Z.opp_involutive n) at 1.
  rewrite Z.quot_opp_l by lia. f_equal. apply Z.quot_div_nonneg; lia.
Qed.

Lemma Qtruncate_sign (q : Q) :
  ((0 <= Qnum q -> 0 <= Qtruncate q) /\ (Qnum q < 0 -> Qtruncate q <= 0))%Z.
Proof.
  destruct q as [n d]. unfold Qtruncate. cbn [Qnum Qden]. split; intros H.
  - apply Z.quot_pos; lia.
  - rewrite <- (Z.opp_involutive n), Z.quot_opp_l by lia.
    assert (0 <= Z.quot (- n) (Zpos d))%Z by (apply Z.quot_pos; lia). lia.
Qed.

(** Cutting toward zero preserves the order. *)
Lemma Qtruncate_le (p q : Q) : (p <= q)%Q -> (Qtruncate p <= Qtruncate q)%Z.
Proof.
  intros Hle.
  destruct (Z_lt_le_dec (Qnum p) 0) as [Hp | Hp];
    destruct (Z_lt_le_dec (Qnum q) 0) as [Hq | Hq].
  - rewrite !Qtruncate_neg by assumption. now apply Qceiling_resp_le.
  - pose proof (proj2 (Qtruncate_sign p) Hp).
    pose proof (proj1 (Qtruncate_sign q) Hq). lia.
  - exfalso. unfold Qle in Hle.
    pose proof (Pos2Z.is_pos (Qden p)). pose proof (Pos2Z.is_pos (Qden q)). nia.
  - rewrite !Qtruncate_nonneg by assumption. now apply Qfloor_resp_le.
Qed.

Lemma clamp16_le (a b : Z) : (a <= b)%Z -> (clamp16 a <= clamp16 b)%Z.
Proof. unfold clamp16. lia. Qed.

Lemma times_32768_le (p q : Q) : (p <= q)%Q -> (p * 32768 <= q * 32768)%Q.
Proof. intros H. apply Qmult_le_compat_r; [exact H | discriminate]. Qed.

(** X5.  The encoder is monotone: a larger sample never encodes to a
    smaller integer. *)
Theorem encoder_is_monotone (p q : Q) :
  (p <= q)%Q -> (pcm_sample (Finite p) <= pcm_sample (Finite q))%Z.
Proof.
  intros H. rewrite !pcm_sample_finite.
  apply clamp16_le, Qtruncate_le, times_32768_le, H.
Qed.

Lemma encoder_is_monotone_witness :
  (pcm_sample (Finite (-1 # 3)) <= pcm_sample (Finite (1 # 4)))%Z.
Proof. apply encoder_is_monotone. unfold Qle. cbn. lia. Defined.

(** X6.  Every 16-bit value [k] is the encoding of the sample
    [k / 32768], so the encoder reaches the whole range and is exact on
    that grid; it saturates at both ends: every sample from
    [32767 / 32768] up (so [+1.0] too) gives 32767 and every sample from
    [-1.0] down gives -32768. *)
Theorem encoder_exact_on_grid_and_saturating :
  (forall k : Z, (-32768 <= k <= 32767)%Z -> pcm_sample (Finite (k # 32768)) = k) /\
  (forall q : Q, (32767 # 32768 <= q)%Q -> pcm_sample (Finite q) = 32767%Z) /\
  (forall q : Q, (q <= -1)%Q -> pcm_sample (Finite q) = (-32768)%Z).
Proof.
  split; [| split].
  - intros k Hk. rewrite pcm_sample_finite.
    assert (E : Qtruncate ((k # 32768) * 32768) = k).
    { unfold Qtruncate. cbn [Qnum Qden Qmult].
      change (Z.pos (32768 * 1)) with 32768%Z.
      change (Qnum 32768) with 32768%Z. apply Z.quot_mul. discriminate. }
    rewrite E. unfold clamp16. lia.
  - intros q Hq. rewrite pcm_sample_finite.
    pose proof (Qtruncate_le _ _ (times_32768_le _ _ Hq)) as H.
    change (Qtruncate ((32767 # 32768) * 32768)) with 32767%Z in H.
    unfold clamp16. lia.
  - intros q Hq. rewrite pcm_sample_finite.
    pose proof (Qtruncate_le _ _ (times_32768_le _ _ Hq)) as H.
    change (Qtruncate (-1 * 32768)) with (-32768)%Z in H.
    unfold clamp16. lia.
Qed.

Lemma encoder_exact_on_grid_and_saturating_witness :
  pcm_sample (Finite (-12345 # 32768)) = (-12345)%Z /\
  pcm_sample (Finite 1) = 32767%Z /\
  pcm_sample (Finite (-2)) = (-32768)%Z.
Proof.
  destruct encoder_exact_on_grid_and_saturating as (H1 & H2 & H3).
  split; [apply H1; lia |].
  split; [apply H2 | apply H3]; unfold Qle; cbn; lia.
Defined.

(** ** From the microphone to the socket *)

Lemma binary_payloads_emit (e : Effect) (w : World) :
  binary_payloads (emit e w) =
  binary_payloads w ++ match e with ws_send (Binary pcm) => [pcm] | _ => [] end.
Proof.
  unfold binary_payloads, emit. cbn [trace set_trace].
  rewrite flat_map_app. f_equal. cbn. apply app_nil_r.
Qed.

(** One posted frame on an unmuted client. *)
Lemma port_onmessage_unmuted (data : list number) (w : World) :
  isMuted w = false ->
  binary_payloads (port_onmessage "audioData" data w) =
    binary_payloads w ++ (if ws_is_open w then [map pcm_sample data] else []) /\
  visualizer_updates (port_onmessage "audioData" data w) =
    visualizer_updates w ++ [(clock w, visualizer_update data)] /\
  statusClass (port_onmessage "audioData" data w) = listening /\
  session_kept w (port_onmessage "audioData" data w) /\
  clock (port_onmessage "audioData" data w) = clock w.
Proof.
  intros Hm. unfold port_onmessage.
  change (String.eqb "audioData" "audioData") with true. rewrite Hm.
  cbn [andb negb]. unfold sendAudioData, updateAudioVisualizer, session_kept.
  destruct (ws_is_open w).
  - split; [| split; [| now repeat split]].
    + unfold updateStatus. 
      change (binary_payloads (set_statusText ?m (set_statusClass ?s ?x)))
        with (binary_payloads x).
      now rewrite !binary_payloads_emit, <- app_assoc.
    + unfold visualizer_updates, emit. cbn [trace set_trace updateStatus
        set_statusText set_statusClass clock].
      rewrite !List.filter_app. cbn. now rewrite app_nil_r.
  - split; [| split; [| now repeat split]].
    + unfold updateStatus.
      change (binary_payloads (set_statusText ?m (set_statusClass ?s ?x)))
        with (binary_payloads x).
      now rewrite binary_payloads_emit.
    + unfold visualizer_updates, emit. cbn [trace set_trace updateStatus
        set_statusText set_statusClass clock].
      now rewrite List.filter_app.
Qed.

Lemma deliver_frames_unmuted (fs : list (list number)) :
  forall w, isMuted w = false -> ws_is_open w = true ->
  binary_payloads (deliver_frames fs w) =
    binary_payloads w ++ map (map pcm_sample) fs /\
  visualizer_updates (deliver_frames fs w) =
    visualizer_updates w ++ map (fun f => (clock w, visualizer_update f)) fs.
Proof.
  unfold deliver_frames.
  induction fs as [| f fs IH]; intros w Hm Ho; cbn [fold_left map].
  - now rewrite !app_nil_r.
  - destruct (port_onmessage_unmuted f w Hm) as (Hb & Hv & _ & Hk & Hc).
    rewrite Ho in Hb.
    destruct (IH (port_onmessage "audioData" f w)) as [IHb IHv].
    + transitivity (isMuted w); [apply Hk | exact Hm].
    + rewrite (ws_is_open_kept w); [exact Ho | apply Hk].
    + rewrite IHb, IHv, Hb, Hv, Hc, <- !app_assoc. split; reflexivity.
Qed.



(** That run: two frames of two samples. *)
Example microphone_to_socket_run :
  binary_payloads
    (deliver_frames
       (AudioProcessor.frames (Some 2%nat)
          [[[Finite (1 # 2); Finite (-1 # 2); Finite 1]]; [[Finite 0]]])
       (connect env_real page))
  = [[16384; -16384]; [32767; 0]]%Z.
Proof. vm_compute. reflexivity. Qed.

(** ** Inbound messages *)

Lemma sends_emit (e : Effect) (w : World) :
  sends (emit e w) = sends w ++ (if is_send (clock w, e) then [(clock w, e)] else []).
Proof.
  unfold sends, emit. cbn [trace set_trace]. rewrite List.filter_app. cbn.
  now destruct (is_send (clock w, e)).
Qed.

(** X8.  Nothing that [onmessage] is given makes the client send
    anything or touches the session (socket, handles, flags, timers).  A
    binary frame arrives as a [Blob] and, like text that is not JSON,
    makes the handler throw in [JSON.parse] with nothing changed.  The
    value [null] is logged, then the handler throws.  A parsed message
    other than [error] leaves the status as it is, unknown types
    included; an [error] message rewrites the status to disconnected with
    the server's text while the connection stays up.  Only an
    [ArrayBuffer] is played, leaving the status speaking or connected. *)
Theorem inbound_messages_never_send (d : EventData) (w : World) :
  sends (fst (ws_onmessage d w)) = sends w /\
  session_kept w (fst (ws_onmessage d w)) /\
  match d with
  | BlobData | StringData parse_SyntaxError =>
      ws_onmessage d w = (w, Throws "SyntaxError")
  | StringData parse_null =>
      snd (ws_onmessage d w) = Throws "TypeError" /\
      statusClass (fst (ws_onmessage d w)) = statusClass w /\
      statusText (fst (ws_onmessage d w)) = statusText w
  | StringData (parse_value (msg_error e)) =>
      snd (ws_onmessage d w) = Normal /\
      statusClass (fst (ws_onmessage d w)) = disconnected /\
      statusText (fst (ws_onmessage d w)) = ("エラー: " ++ e)%string
  | StringData (parse_value _) =>
      snd (ws_onmessage d w) = Normal /\
      statusClass (fst (ws_onmessage d w)) = statusClass w /\
      statusText (fst (ws_onmessage d w)) = statusText w
  | ArrayBufferData _ =>
      snd (ws_onmessage d w) = Normal /\
      (statusClass (fst (ws_onmessage d w)) = speaking \/
       statusClass (fst (ws_onmessage d w)) = connected)
  end.
Proof.
  destruct w as [s c ms n ic im i sc st cb md mt ts nt ck dr tr].
  unfold session_kept, sends.
  destruct d as [[e | [| e]] | | [| | message]];
    [destruct c .. | | | | destruct message];
    cbn; repeat rewrite List.filter_app; cbn; rewrite ?app_nil_r;
    repeat split; auto.
Qed.

(** ** Playback at the edges *)

(** X9.  When [playAudioResponse] is called while [this.audioContext]
    is null, the decoder is never reached: the failure is caught and
    logged once, no source is started, the session is untouched and the
    status ends connected. *)
Theorem playback_without_audio_context (o : DecodeOutcome) (w : World) :
  audioContext w = None ->
  trace (playAudioResponse o w) =
    trace w ++ [(clock w, console_error "Error playing audio response:")] /\
  statusClass (playAudioResponse o w) = connected /\
  session_kept w (playAudioResponse o w).
Proof.
  destruct w as [s c ms n ic im i sc st cb md mt ts nt ck dr tr].
  cbn [audioContext]. intros ->. unfold session_kept. cbn.
  repeat split; reflexivity.
Qed.

Lemma playback_without_audio_context_witness :
  statusClass (playAudioResponse (Decoded Normal) page) = connected.
Proof.
  exact (proj1 (proj2 (playback_without_audio_context (Decoded Normal) page eq_refl))).
Defined.

(** Completions on a world without audio context that is not
    connected. *)
Lemma late_completion (o : DecodeOutcome) (x : World) :
  audioContext x = None -> isConnected x = false ->
  statusClass (playAudioResponse_resume o x) = connected /\
  isConnected (playAudioResponse_resume o x) = false /\
  count_calls is_source_start (playAudioResponse_resume o x) =
    count_calls is_source_start x /\
  statusClass (source_onended x) = connected /\
  isConnected (source_onended x) = false.
Proof.
  intros Hctx Hcon.
  assert (E : playAudioResponse_resume o x = playAudioResponse_catch x).
  { unfold playAudioResponse_resume. rewrite Hctx. now destruct o. }
  rewrite E. unfold playAudioResponse_catch, count_calls.
  cbn [statusClass isConnected updateStatus set_statusText set_statusClass
       emit set_trace trace source_onended].
  rewrite List.filter_app. cbn. rewrite app_nil_r.
  repeat split; auto.
Qed.

Lemma disconnect_facts (w : World) :
  statusClass (disconnect w) = disconnected /\
  audioContext (disconnect w) = None /\
  isConnected (disconnect w) = false.
Proof. by_cases_on_handles w; vm_compute; repeat split. Qed.

(** X10.  A decode that completes after the session was torn down is
    not discarded: whatever its outcome, it ends in the [catch] block,
    which starts no source but overwrites the disconnected status with
    connected while the client stays disconnected.  An [onended] that
    fires after teardown does the same. *)
Theorem late_playback_overwrites_status (o : DecodeOutcome) (w : World) :
  statusClass (disconnect w) = disconnected /\
  statusClass (playAudioResponse_resume o (disconnect w)) = connected /\
  isConnected (playAudioResponse_resume o (disconnect w)) = false /\
  count_calls is_source_start (playAudioResponse_resume o (disconnect w)) =
    count_calls is_source_start (disconnect w) /\
  statusClass (source_onended (disconnect w)) = connected /\
  isConnected (source_onended (disconnect w)) = false.
Proof.
  destruct (disconnect_facts w) as (Hs & Hctx & Hcon).
  split; [exact Hs |]. exact (late_completion o (disconnect w) Hctx Hcon).
Qed.

(** ** The outcome of [connect] *)

Ltac filter_trace :=
  cbn; repeat rewrite List.filter_app; cbn; rewrite ?app_nil_r, <- ?app_assoc.

Lemma cleanup_statusClass (w : World) : statusClass (cleanup w) = statusClass w.
Proof. by_cases_on_handles w; vm_compute; reflexivity. Qed.

Lemma cleanup_sends (w : World) : sends (cleanup w) = sends w.
Proof.
  unfold sends. by_cases_on_handles w; run_model;
    repeat rewrite List.filter_app; simpl; rewrite ?app_nil_r; reflexivity.
Qed.

Lemma cleanup_ui (w : World) : ui_consistent (cleanup w).
Proof. unfold ui_consistent. by_cases_on_handles w; vm_compute; repeat split. Qed.

(** What the [catch] block of [connect] leaves behind. *)
Lemma connect_catch_facts (m : string) (x : World) :
  isConnected (connect_catch m x) = false /\
  statusClass (connect_catch m x) = disconnected /\
  released (connect_catch m x) /\
  ui_consistent (connect_catch m x) /\
  sends (connect_catch m x) = sends x.
Proof.
  unfold connect_catch.
  split; [apply cleanup_isConnected |].
  split; [rewrite cleanup_statusClass; reflexivity |].
  split; [apply cleanup_released |].
  split; [apply cleanup_ui |].
  rewrite cleanup_sends. unfold sends. filter_trace. reflexivity.
Qed.

(** [initializeAudio] sends nothing, keeps the clock, the flags and the
    buttons, and ends normally exactly when [audio_initializes] says. *)
Lemma initializeAudio_facts (env : Env) (w : World) :
  sends (fst (initializeAudio env w)) = sends w /\
  clock (fst (initializeAudio env w)) = clock w /\
  ui_kept w (fst (initializeAudio env w)) /\
  if audio_initializes env
  then snd (initializeAudio env w) = Normal
  else exists m, snd (initializeAudio env w) = Throws m.
Proof.
  unfold ui_kept, sends.
  destruct env as [[| g] [| r] [| a] [| k] h]; cbn;
    repeat rewrite List.filter_app; cbn; rewrite ?app_nil_r;
    repeat split; eauto.
Qed.

Lemma connectWebSocket_facts (env : Env) (w : World) :
  ui_kept w (fst (connectWebSocket env w)) /\
  if handshake env
  then snd (connectWebSocket env w) = Normal /\
       ws_is_open (fst (connectWebSocket env w)) = true /\
       sends (fst (connectWebSocket env w)) =
         sends w ++ [(clock w, ws_send (Text msg_ready))]
  else (exists m, snd (connectWebSocket env w) = Throws m) /\
       sends (fst (connectWebSocket env w)) = sends w.
Proof.
  unfold ui_kept, sends.
  destruct env as [g r a k [|]]; cbn;
    repeat rewrite List.filter_app; cbn; rewrite ?app_nil_r;
    repeat split; eauto.
Qed.

(** X11.  [connect] ends connected exactly when the audio side
    initialises (the real path succeeds entirely, or else the mock
    fallback can be set up) and the handshake succeeds.  Then the status
    is connected, the socket is open and the only message sent is
    [ready].  Otherwise the status is disconnected, every handle is
    released and nothing was sent. *)
Theorem connect_outcome (env : Env) (w : World) :
  isConnected (connect env w) = audio_initializes env && handshake env /\
  if audio_initializes env && handshake env
  then statusClass (connect env w) = connected /\
       ws_is_open (connect env w) = true /\
       sends (connect env w) = sends w ++ [(clock w, ws_send (Text msg_ready))]
  else statusClass (connect env w) = disconnected /\
       released (connect env w) /\
       sends (connect env w) = sends w.
Proof.
  unfold connect.
  destruct (initializeAudio_facts env (updateStatus connecting "接続中..." w))
    as (Hs1 & Hc1 & _ & Hr1).
  destruct (initializeAudio env (updateStatus connecting "接続中..." w))
    as [w1 c1].
  cbn [fst snd] in Hs1, Hc1, Hr1.
  change (sends (updateStatus connecting "接続中..." w)) with (sends w) in Hs1.
  change (clock (updateStatus connecting "接続中..." w)) with (clock w) in Hc1.
  destruct (audio_initializes env); cbn [andb].
  - subst c1.
    destruct (connectWebSocket_facts env w1) as (_ & Hr2).
    destruct (connectWebSocket env w1) as [w2 c2]. cbn [fst snd] in Hr2.
    destruct (handshake env).
    + destruct Hr2 as (-> & Ho & Hs2).
      split; [reflexivity |]. split; [reflexivity |]. split; [exact Ho |].
      change (sends w2 = sends w ++ [(clock w, ws_send (Text msg_ready))]).
      now rewrite Hs2, Hs1, Hc1.
    + destruct Hr2 as ((m & ->) & Hs2).
      destruct (connect_catch_facts m w2) as (H1 & H2 & H3 & _ & H5).
      split; [exact H1 |]. split; [exact H2 |]. split; [exact H3 |].
      now rewrite H5, Hs2.
  - destruct Hr1 as (m & ->).
    destruct (connect_catch_facts m w1) as (H1 & H2 & H3 & _ & H5).
    split; [exact H1 |]. split; [exact H2 |]. split; [exact H3 |].
    now rewrite H5.
Qed.

Example connect_outcomes :
  isConnected (connect env_real page) = true /\
  isConnected (connect env_no_microphone page) = true /\
  isConnected (connect env_no_worklet page) = true /\
  isConnected (connect env_no_audio page) = false /\
  sends (connect env_no_worklet page) = [(0%N, ws_send (Text msg_ready))].
Proof. repeat split; vm_compute; reflexivity. Qed.

(** ** Buttons and flags *)

Lemma ui_kept_consistent (w w' : World) :
  ui_kept w w' -> ui_consistent w -> ui_consistent w'.
Proof.
  unfold ui_kept, ui_consistent. intros (H1 & H2 & H3 & H4 & H5) (A & B & C).
  rewrite H1, H2, H3, H4, H5. auto.
Qed.

Lemma run_callback_ui (rnd : Random) (cb : Callback) (w : World) :
  ui_kept w (run_callback rnd cb w).
Proof.
  unfold ui_kept.
  destruct cb; cbn [run_callback]; unfold mockAudioTick, pingTick,
    sendAudioData, sendControlMessage;
    repeat match goal with
           | |- context [if ?b then _ else _] => destruct b eqn:?
           end; repeat split; try reflexivity; cbn; congruence.
Qed.

Lemma advance_ui (rnd : Random) (ms : N) (w : World) :
  ui_consistent w -> ui_consistent (advance rnd ms w).
Proof.
  apply (advance_preserves rnd ui_consistent).
  - intros cb x Hx. exact (ui_kept_consistent x _ (run_callback_ui rnd cb x) Hx).
  - intros c x Hx. exact Hx.
  - intros ts x Hx. exact Hx.
Qed.

Lemma connect_catch_ui (m : string) (x : World) : ui_consistent (connect_catch m x).
Proof. unfold connect_catch. apply cleanup_ui. Qed.

Lemma disconnect_ui (w : World) : ui_consistent (disconnect w).
Proof. unfold ui_consistent. by_cases_on_handles w; vm_compute; repeat split. Qed.

Lemma ui_kept_trans (a b c : World) : ui_kept a b -> ui_kept b c -> ui_kept a c.
Proof. unfold ui_kept. intuition congruence. Qed.

Lemma connect_ui (env : Env) (w : World) :
  ui_consistent w -> ui_consistent (connect env w).
Proof.
  intros H. unfold connect.
  destruct (initializeAudio_facts env (updateStatus connecting "接続中..." w))
    as (_ & _ & Hk1 & _).
  destruct (initializeAudio env (updateStatus connecting "接続中..." w))
    as [w1 [| m1]]; [| exact (connect_catch_ui m1 w1)].
  destruct (connectWebSocket_facts env w1) as (Hk2 & _).
  destruct (connectWebSocket env w1) as [w2 [| m2]]; [| exact (connect_catch_ui m2 w2)].
  cbn [fst] in Hk1, Hk2.
  assert (Hk : ui_kept w w2).
  { apply (ui_kept_trans w w1 w2); [| exact Hk2]. exact Hk1. }
  destruct Hk as (_ & K2 & _ & _ & K5). destruct H as (_ & _ & C).
  unfold ui_consistent. cbn. repeat split. now rewrite K5, K2.
Qed.

Lemma step_ui (w : World) (e : Event) : ui_consistent w -> ui_consistent (step w e).
Proof.
  intros H. destruct e as [env | | type data | d | | | rnd ms |]; cbn [step].
  - unfold connectBtn_click. destruct (isConnected w).
    + apply disconnect_ui.
    + now apply connect_ui.
  - destruct w as [s c ms n ic im i sc st cb md mt ts nt ck dr tr].
    unfold ui_consistent, muteBtn_click, toggleMute in *. cbn in *.
    destruct H as (A & B & C). destruct md, im, ic; cbn; repeat split; auto;
      discriminate.
  - apply (ui_kept_consistent w); [| exact H]. unfold ui_kept, port_onmessage,
      sendAudioData.
    repeat match goal with
           | |- context [if ?b then _ else _] => destruct b eqn:?
           end; repeat split; try reflexivity; cbn; congruence.
  - apply (ui_kept_consistent w); [| exact H].
    destruct w as [s c ms n ic im i sc st cb md mt ts nt ck dr tr].
    unfold ui_kept.
    destruct d as [[e | [| e]] | | [| | message]];
      [destruct c .. | | | | destruct message];
      cbn; repeat split; reflexivity.
  - destruct w as [s c ms n ic im i sc st cb md mt ts nt ck dr tr].
    unfold ui_consistent in *. destruct H as (A & B & C).
    destruct s; cbn in *; repeat split; auto.
  - exact H.
  - now apply advance_ui.
  - unfold beforeunload. apply cleanup_ui.
Qed.

(** X12.  The buttons always tell the truth about the flags.  [cleanup]
    establishes, from any state, that the mute button is disabled exactly
    when the client is not connected, that the connect button reads
    disconnect exactly when it is connected, and that the mute button's
    label matches the mute flag; every event of the page (clicks, worklet
    and socket messages, socket close, end of playback, timers, unload)
    preserves this. *)
Theorem buttons_follow_the_flags :
  (forall w, ui_consistent (cleanup w)) /\
  (forall es w, ui_consistent w -> ui_consistent (run_events es w)).
Proof.
  split; [exact cleanup_ui |].
  unfold run_events. induction es as [| e es IH]; intros w H; cbn [fold_left].
  - exact H.
  - apply IH, step_ui, H.
Qed.

Lemma buttons_follow_the_flags_witness :
  ui_consistent
    (run_events [ev_connectBtn_click env_no_microphone; ev_muteBtn_click;
                 ev_time silence 40; ev_ws_close;
                 ev_connectBtn_click env_real; ev_muteBtn_click] page).
Proof.
  apply (proj2 buttons_follow_the_flags).
  unfold ui_consistent. vm_compute. repeat split.
Defined.

(** ** Timers across connect and teardown *)

Lemma initializeAudio_timers (env : Env) (w : World) :
  if mock_fallback env
  then mockAudioInterval (fst (initializeAudio env w)) = Some (nextTimerId w) /\
       timers (fst (initializeAudio env w)) =
         timers w ++ [(nextTimerId w,
                       {| callback := MockAudioTick; period := 20;
                          due := (clock w + 20)%N |})]
  else mockAudioInterval (fst (initializeAudio env w)) = mockAudioInterval w /\
       timers (fst (initializeAudio env w)) = timers w.
Proof.
  destruct env as [[| g] [| r] [| a] [| k] h]; cbn; split; reflexivity.
Qed.

Lemma connectWebSocket_timers (env : Env) (w : World) :
  mockAudioInterval (fst (connectWebSocket env w)) = mockAudioInterval w /\
  timers (fst (connectWebSocket env w)) = timers w.
Proof. destruct env as [g r a k [|]]; cbn; split; reflexivity. Qed.

Lemma cleanup_timers_without (w : World) :
  timers (cleanup w) = without_timer (mockAudioInterval w) (timers w).
Proof. apply cleanup_timers. Qed.

Lemma connect_catch_timers (m : string) (x : World) :
  timers (connect_catch m x) = without_timer (mockAudioInterval x) (timers x).
Proof. unfold connect_catch. rewrite cleanup_timers_without. reflexivity. Qed.

Lemma cleanup_connect_catch (m : string) (x : World) :
  cleanup (connect_catch m x) = connect_catch m x.
Proof. unfold connect_catch. apply cleanup_idempotent. Qed.

(** The timers left by a teardown that follows [connect]: those of the
    world after audio initialisation, less the mock timer it holds. *)
Lemma teardown_timers (env : Env) (w : World) :
  timers (cleanup (connect env w)) =
  without_timer
    (mockAudioInterval (fst (initializeAudio env (updateStatus connecting "接続中..." w))))
    (timers (fst (initializeAudio env (updateStatus connecting "接続中..." w)))).
Proof.
  unfold connect.
  destruct (initializeAudio env (updateStatus connecting "接続中..." w))
    as [w1 [| m1]]; cbn [fst].
  - destruct (connectWebSocket_timers env w1) as [Hm Ht].
    destruct (connectWebSocket env w1) as [w2 [| m2]]; cbn [fst] in Hm, Ht.
    + rewrite cleanup_timers_without. cbn [mockAudioInterval timers updateStatus
        set_statusText set_statusClass set_muteBtnDisabled set_connectBtnText
        set_isConnected]. now rewrite Hm, Ht.
    + rewrite cleanup_connect_catch, connect_catch_timers. now rewrite Hm, Ht.
  - now rewrite cleanup_connect_catch, connect_catch_timers.
Qed.

Lemma disconnect_timers (w : World) : timers (disconnect w) = timers (cleanup w).
Proof. by_cases_on_handles w; vm_compute; reflexivity. Qed.

Lemma disconnect_released (w : World) : released (disconnect w).
Proof. unfold released. by_cases_on_handles w; vm_compute; repeat split. Qed.

Lemma filter_fresh (nid : positive) (ts : list (positive * Interval)) :
  Forall (fun t => (fst t < nid)%positive) ts ->
  List.filter (fun t => negb (Pos.eqb (fst t) nid)) ts = ts.
Proof.
  induction 1 as [| t ts Ht _ IH]; cbn [List.filter]; [reflexivity |].
  destruct (Pos.eqb_spec (fst t) nid) as [E | _]; [lia |].
  cbn [negb]. now rewrite IH.
Qed.

Lemma without_new_timer (nid : positive) (ts : list (positive * Interval))
    (i : Interval) :
  Forall (fun t => (fst t < nid)%positive) ts ->
  without_timer (Some nid) (ts ++ [(nid, i)]) = ts.
Proof.
  intros H. unfold without_timer. rewrite List.filter_app, filter_fresh by exact H.
  cbn. rewrite Pos.eqb_refl. apply app_nil_r.
Qed.

(** X13.  From a world that holds no handle and whose timer ids are all
    older than the next id, [connect] followed by [disconnect] leaves
    exactly the timers that were live before (the mock timer a fallback
    registered is cancelled again) and no handle; a [connect] that fails
    does so on its own. *)
Theorem connect_then_disconnect_restores_timers (env : Env) (w : World) :
  released w -> timers_fresh w ->
  timers (disconnect (connect env w)) = timers w /\
  released (disconnect (connect env w)) /\
  (isConnected (connect env w) = false ->
   timers (connect env w) = timers w /\ released (connect env w)).
Proof.
  intros (Hm & _) Hfresh.
  assert (Ht : timers (cleanup (connect env w)) = timers w).
  { rewrite teardown_timers.
    pose proof (initializeAudio_timers env (updateStatus connecting "接続中..." w))
      as H.
    destruct (mock_fallback env); destruct H as [-> ->].
    - apply without_new_timer. exact Hfresh.
    - change (mockAudioInterval (updateStatus connecting "接続中..." w))
        with (mockAudioInterval w). rewrite Hm. reflexivity. }
  split; [rewrite disconnect_timers; exact Ht |].
  split; [apply disconnect_released |].
  intros Hc. destruct (connect_cases env w) as [[x Hx] | [Hc' _]];
    [| congruence].
  split.
  - rewrite Hx in Ht |- *. rewrite cleanup_idempotent in Ht. exact Ht.
  - rewrite Hx. apply cleanup_released.
Qed.

Lemma connect_then_disconnect_restores_timers_witness :
  timers (disconnect (connect env_no_microphone page)) = timers page.
Proof.
  refine (proj1 (connect_then_disconnect_restores_timers env_no_microphone page _ _)).
  - unfold released. vm_compute. repeat split.
  - unfold timers_fresh. vm_compute. repeat constructor.
Defined.

Lemma ws_onclose_keeps (w : World) :
  mockAudioInterval (ws_onclose w) = mockAudioInterval w /\
  timers (ws_onclose w) = timers w /\
  nextTimerId (ws_onclose w) = nextTimerId w /\
  audioContext (ws_onclose w) = audioContext w /\
  mediaStream (ws_onclose w) = mediaStream w /\
  audioWorkletNode (ws_onclose w) = audioWorkletNode w /\
  isMuted (ws_onclose w) = isMuted w /\
  trace (ws_onclose w) = trace w ++ [(clock w, console_log "WebSocket disconnected")].
Proof. unfold ws_onclose. destruct (ws w); cbn; repeat split; reflexivity. Qed.

Lemma existsb_filter_other (id nid : positive) (ts : list (positive * Interval)) :
  id <> nid ->
  existsb (fun t => Pos.eqb (fst t) id)
    (List.filter (fun t => negb (Pos.eqb (fst t) nid)) ts) =
  existsb (fun t => Pos.eqb (fst t) id) ts.
Proof.
  intros Hne. induction ts as [| t ts IH]; cbn [List.filter existsb]; [reflexivity |].
  destruct (Pos.eqb_spec (fst t) nid) as [E | _]; cbn [negb existsb].
  - rewrite IH. destruct (Pos.eqb_spec (fst t) id); [congruence | reflexivity].
  - now rewrite IH.
Qed.

(** X14.  The close event of the socket releases nothing.  If the
    session it ends ran on the mock source, its timer stays live with its
    handle in place; a new [connect] that falls back to the mock source
    again overwrites the handle, and the teardown that follows cancels
    only the newer timer: every handle is null while the old timer is
    still live. *)
Theorem reconnect_after_close_leaves_old_mock_timer (env : Env) (w : World)
    (id : positive) :
  mockAudioInterval w = Some id -> timer_live id w = true ->
  (id < nextTimerId w)%positive -> mock_fallback env = true ->
  mockAudioInterval (ws_onclose w) = Some id /\
  timer_live id (ws_onclose w) = true /\
  released (disconnect (connect env (ws_onclose w))) /\
  timer_live id (disconnect (connect env (ws_onclose w))) = true.
Proof.
  intros Hm Hlive Hlt Hmock.
  destruct (ws_onclose_keeps w) as (K1 & K2 & K3 & _).
  split; [congruence |].
  split; [unfold timer_live; now rewrite K2 |].
  split; [apply disconnect_released |].
  unfold timer_live. rewrite disconnect_timers, teardown_timers.
  pose proof (initializeAudio_timers env
                (updateStatus connecting "接続中..." (ws_onclose w))) as H.
  rewrite Hmock in H. destruct H as [-> ->].
  change (nextTimerId (updateStatus connecting "接続中..." (ws_onclose w)))
    with (nextTimerId (ws_onclose w)).
  change (timers (updateStatus connecting "接続中..." (ws_onclose w)))
    with (timers (ws_onclose w)).
  rewrite K2, K3. unfold without_timer.
  rewrite existsb_filter_other by lia.
  rewrite existsb_app. unfold timer_live in Hlive. now rewrite Hlive.
Qed.

Lemma reconnect_after_close_leaves_old_mock_timer_witness :
  timer_live 2
    (disconnect (connect env_no_microphone
                   (ws_onclose (connect env_no_microphone page)))) = true.
Proof.
  refine (proj2 (proj2 (proj2
    (reconnect_after_close_leaves_old_mock_timer env_no_microphone
       (connect env_no_microphone page) 2%positive _ _ _ _)))).
  - vm_compute. reflexivity.
  - vm_compute. reflexivity.
  - vm_compute. reflexivity.
  - reflexivity.
Defined.

(** After such a reconnect both mock timers fire: two frames per 20 ms. *)
Example two_mock_timers_after_reconnect :
  payload_sizes (advance silence 20 (connect env_no_microphone page)) = [320%nat] /\
  payload_sizes
    (advance silence 20
       (connect env_no_microphone (ws_onclose (connect env_no_microphone page))))
  = [320%nat; 320%nat].
Proof. split; vm_compute; reflexivity. Qed.

(** ** The cadence of the mock source *)














(** ** Muting in the middle of a stream *)

Lemma toggleMute_facts (w : World) :
  isMuted (toggleMute w) = negb (isMuted w) /\
  ws (toggleMute w) = ws w /\
  muteBtnDisabled (toggleMute w) = muteBtnDisabled w /\
  binary_payloads (toggleMute w) = binary_payloads w /\
  visualizer_updates (toggleMute w) = visualizer_updates w.
Proof.
  destruct w as [s c ms n ic im i sc st cb md mt ts nt ck dr tr].
  destruct im; cbn; repeat split; reflexivity.
Qed.

Lemma deliver_frames_muted (fs : list (list number)) (w : World) :
  isMuted w = true -> deliver_frames fs w = w.
Proof.
  intros H. unfold deliver_frames.
  induction fs as [| f fs IH]; cbn [fold_left]; [reflexivity |].
  now rewrite port_onmessage_muted.
Qed.

(** X16.  Muting drops frames, it does not delay them.  On an unmuted
    client with an open socket and the mute button enabled: click mute,
    let the worklet post any frames, click again, let it post more.  The
    payloads sent are exactly the encodings of the frames posted after
    the second click; those posted in between are neither sent later nor
    shown. *)
Theorem frames_posted_while_muted_are_lost (fs1 fs2 : list (list number))
    (w : World) :
  isMuted w = false -> muteBtnDisabled w = false -> ws_is_open w = true ->
  let w' := deliver_frames fs2 (muteBtn_click (deliver_frames fs1 (muteBtn_click w))) in
  isMuted w' = false /\
  binary_payloads w' = binary_payloads w ++ map (map pcm_sample) fs2 /\
  length (visualizer_updates w') = (length (visualizer_updates w) + length fs2)%nat.
Proof.
  intros Hm Hd Ho w'.
  destruct (toggleMute_facts w) as (M1 & W1 & D1 & B1 & V1).
  assert (E1 : muteBtn_click w = toggleMute w)
    by (unfold muteBtn_click; now rewrite Hd).
  assert (Hm1 : isMuted (toggleMute w) = true) by (now rewrite M1, Hm).
  assert (E2 : deliver_frames fs1 (muteBtn_click w) = toggleMute w)
    by (rewrite E1; now apply deliver_frames_muted).
  destruct (toggleMute_facts (toggleMute w)) as (M2 & W2 & D2 & B2 & V2).
  assert (E3 : muteBtn_click (toggleMute w) = toggleMute (toggleMute w))
    by (unfold muteBtn_click; now rewrite D1, Hd).
  assert (Hm2 : isMuted (toggleMute (toggleMute w)) = false)
    by (now rewrite M2, Hm1).
  assert (Ho2 : ws_is_open (toggleMute (toggleMute w)) = true).
  { rewrite (ws_is_open_kept w); [exact Ho | congruence]. }
  destruct (deliver_frames_unmuted fs2 _ Hm2 Ho2) as [Hb Hv].
  unfold w'. rewrite E2, E3.
  split; [| split].
  - clear Hb Hv. revert Hm2. generalize (toggleMute (toggleMute w)).
    unfold deliver_frames. induction fs2 as [| f fs IH]; intros x Hx;
      cbn [fold_left]; [exact Hx |].
    apply IH. destruct (port_onmessage_unmuted f x Hx) as (_ & _ & _ & Hk & _).
    transitivity (isMuted x); [apply Hk | exact Hx].
  - rewrite Hb, B2, B1. reflexivity.
  - rewrite Hv, length_app, length_map, V2, V1. reflexivity.
Qed.

Lemma frames_posted_while_muted_are_lost_witness :
  binary_payloads
    (deliver_frames [[Finite (1 # 4)]]
       (muteBtn_click
          (deliver_frames [[Finite (1 # 2)]; [Finite 1]]
             (muteBtn_click (connect env_real page)))))
  = binary_payloads (connect env_real page) ++ map (map pcm_sample) [[Finite (1 # 4)]].
Proof.
  exact (proj1 (proj2 (frames_posted_while_muted_are_lost
                         [[Finite (1 # 2)]; [Finite 1]] [[Finite (1 # 4)]]
                         (connect env_real page) eq_refl eq_refl eq_refl))).
Defined.
